(** * my_2d_robot: the joint-state publisher and the kinematics logger

    A shallow embedding of [my_2d_robo_state_publisher.cpp] (the publisher's
    [main] loop and the class [SensorMeasurementData]).

    - C++ [double] is the kernel's binary64 [float]; C++ [float] is binary32,
      obtained with the Standard Library's [SpecFloat] at precision 24.
    - C++ [int] is a [Z] in the 32-bit range; overflow of a signed addition
      and an out-of-range [operator[]] are undefined behaviour and end a run
      with [Undefined].
    - libm's [cos] and [sin] and yaml-cpp's rendering of a double are not
      part of the repository: they are parameters of the model. *)

From Stdlib Require Import ZArith List String Ascii Bool Lia Floats QArith Qabs Qround.
From Stdlib Require DecimalString.
Import ListNotations.

Local Open Scope Z_scope.

(** ** Machine numbers *)

Module Num.

Definition INT_MAX : Z := 2147483647.
Definition INT_MIN : Z := -2147483648.
(** glibc's [RAND_MAX]; [rand()] returns an [int] in [0, RAND_MAX]. *)
Definition RAND_MAX : Z := 2147483647.

Definition in_int (z : Z) : bool := (INT_MIN <=? z) && (z <=? INT_MAX).

(** [M_PI] of <cmath>: 3.14159265358979323846 as a binary64. *)
Definition M_PI : float := 0x1.921fb54442d18p+1%float.

(** Conversion of an [int] to [double] (exact: 32 bits fit in 53). *)
Definition double_of_int (k : Z) : float :=
  if k <? 0 then PrimFloat.opp (PrimFloat.of_uint63 (Uint63.of_Z (- k)))
  else PrimFloat.of_uint63 (Uint63.of_Z k).

(** Conversion of a [double] to C++ [float] (binary32, round to nearest
    even), and back to [double] (exact).  The result is the binary64 that
    holds the binary32 value. *)
Definition float_of_double (d : float) : float :=
  match Prim2SF d with
  | S754_finite s m e =>
      SF2Prim (binary_normalize 24 128 (cond_Zopp s (Zpos m)) e s)
  | _ => d
  end.

(** The exact rational value of a finite binary64, in lowest terms. *)
Definition exact_value (d : float) : option Q :=
  match Prim2SF d with
  | S754_zero _ => Some 0%Q
  | S754_finite s m e =>
      Some (Qred (if 0 <=? e then inject_Z (cond_Zopp s (Zpos m) * 2 ^ e)
                  else (cond_Zopp s (Zpos m) # Z.to_pos (2 ^ (- e)))))
  | _ => None
  end.

End Num.
Import Num.

(** ** Undefined behaviour as an error result *)

Inductive ub : Type :=
| OutOfBounds      (* std::vector::operator[] past the end *)
| SignedOverflow.  (* int arithmetic leaving the 32-bit range *)

Inductive outcome (A : Type) : Type :=
| Ok (a : A)
| Undefined (u : ub).
Arguments Ok {A} a.
Arguments Undefined {A} u.

Definition bind {A B : Type} (m : outcome A) (k : A -> outcome B) : outcome B :=
  match m with
  | Ok a => k a
  | Undefined u => Undefined u
  end.

Notation "x <- m ;; k" := (bind m (fun x => k))
  (at level 61, m at next level, right associativity).

(** [v[i]] on a [std::vector<double>]. *)
Definition at_index (v : list float) (i : nat) : outcome float :=
  match nth_error v i with
  | Some x => Ok x
  | None => Undefined OutOfBounds
  end.

(** [v.resize(n)] on a [std::vector]: cut to [n] elements or fill up with
    value-initialised ones. *)
Definition resize {A : Type} (n : nat) (dflt : A) (v : list A) : list A :=
  firstn n v ++ repeat dflt (n - List.length v)%nat.

(** [a + b] on [int]. *)
Definition int_add (a b : Z) : outcome Z :=
  if in_int (a + b) then Ok (a + b) else Undefined SignedOverflow.

(** ** Messages and the ROS side *)

(** [sensor_msgs::JointState], the fields the two nodes touch. *)
Record JointState : Type := mkJointState {
  stamp : Z;
  name : list string;
  position : list float
}.

(** What reaches the ROS console. *)
Inductive rosout_line : Type :=
| ROS_INFO (fmt : string) (arg : float)
| ROS_ERROR (text : string).

(** ** The publisher ([main]) *)

Module Publisher.

(** [(rand() % 315) / 100.0] stored in a [float] variable, then copied into
    the [double] vector [joint_state.position]. *)
Definition joint_pos (r : Z) : float :=
  float_of_double (PrimFloat.div (double_of_int (Z.rem r 315)) 100%float).

(** One turn of the [while] loop: [now] is [ros::Time::now()], [r1] and
    [r2] the two results of [rand()].  Returns the updated [joint_state]
    (which is also the message handed to [joint_pub.publish]) and the line
    written by [ROS_INFO]. *)
Definition loop_body (joint_state : JointState) (now r1 r2 : Z)
  : outcome (JointState * rosout_line) :=
  let joint_state := mkJointState now (name joint_state) (position joint_state) in
  let joint1_pos := joint_pos r1 in
  let joint2_pos := joint_pos r2 in
  let joint_state := mkJointState (stamp joint_state)
                       (resize 2 EmptyString (name joint_state))
                       (resize 2 0%float (position joint_state)) in
  let joint_state := mkJointState (stamp joint_state) ["joint1"; "joint2"]%string
                       (position joint_state) in
  let joint_state := mkJointState (stamp joint_state) (name joint_state)
                       [joint1_pos; joint2_pos] in
  p0 <- at_index (position joint_state) 0 ;;
  Ok (joint_state, ROS_INFO "%F" p0).

(** The largest value [joint_pos] takes: the binary32 next to 3.14, which
    is 3.1400001049041748046875. *)
Definition top_value : Q := 13170115 # 4194304.

(** [p] is a finite double in [0, top_value] within 2^-23 of [k/100]. *)
Definition near_hundredth (k : Z) (p : float) : bool :=
  match exact_value p with
  | Some q =>
      Qle_bool 0 q && Qle_bool q top_value
      && Qle_bool (Qabs (q - (k # 100))) (1 # 8388608)
  | None => false
  end.

Definition residues : list Z := map Z.of_nat (seq 0 315).

(** The number of hundredths nearest to a finite double: its exact value
    times 100, rounded to the nearest integer. *)
Definition hundredth_of (p : float) : option Z :=
  match exact_value p with
  | Some q => Some (Qfloor (q * (100 # 1) + (1 # 2)))
  | None => None
  end.

(** One turn of the loop as its surroundings grant it: whether shutdown of
    the node had been requested by then, what [ros::Time::now()] answers,
    and the two results of [rand()]. *)
Record Tick : Type := mkTick {
  shutdown_requested : bool;
  tick_now : Z;
  rand1 : Z;
  rand2 : Z
}.

(** The condition of the [while].  The source writes [ros::ok], the
    function, not the call [ros::ok()]: as a condition a function
    designator is its address compared with null, so it holds whatever
    the state of the node is. *)
Definition loop_condition (shutdown_requested : bool) : bool := true.

(** [main] from the loop on, for the turns granted: the messages handed to
    [publish], the console lines, and the exit status once [main] has
    returned ([None]: it is still in the loop). *)
Fixpoint main_loop (joint_state : JointState) (ticks : list Tick)
  : outcome (list JointState * list rosout_line * option Z) :=
  match ticks with
  | [] => Ok ([], [], None)
  | t :: ticks' =>
      if loop_condition (shutdown_requested t) then
        turn <- loop_body joint_state (tick_now t) (rand1 t) (rand2 t) ;;
        rest <- main_loop (fst turn) ticks' ;;
        Ok (fst turn :: fst (fst rest), snd turn :: snd (fst rest), snd rest)
      else Ok ([], [], Some 0)
  end.

(** The message a turn is expected to publish. *)
Definition message_of (t : Tick) : JointState :=
  mkJointState (tick_now t) ["joint1"; "joint2"]%string
               [joint_pos (rand1 t); joint_pos (rand2 t)].

End Publisher.

(** ** yaml-cpp, as far as the logger uses it

    [YAML::Emitter] restricted to the manipulators and values that
    [saveJointAnglesEepos] streams into it.  The emitter keeps a stack of
    open collections; what is written before a node depends on the
    collection it goes into (block sequence: a dash; block mapping: a new
    indented line before a key, a colon before a value; flow sequence: a
    comma between items).  [Key] and [Value] are deduced by yaml-cpp from
    the parity of the nodes of a mapping and write nothing themselves. *)

Module YAML.

Local Open Scope string_scope.

Definition nl : string := String (ascii_of_nat 10) "".

Inductive manip : Type :=
| BeginSeq | EndSeq | BeginMap | EndMap | Key | Value | Flow
| Str (s : string)
| Dbl (d : float).

Inductive coll : Type := SeqC | MapC.

Record frame : Type := mkFrame {
  kind : coll;
  is_flow : bool;
  indent : nat;
  children : nat
}.

(** [chunks] holds what was written, latest first. *)
Record Emitter : Type := mkEmitter {
  chunks : list string;
  frames : list frame;
  flow_next : bool
}.

Definition fresh : Emitter := mkEmitter [] [] false.

Definition c_str (e : Emitter) : string :=
  fold_left (fun acc s => s ++ acc) (chunks e) "".

Fixpoint spaces (n : nat) : string :=
  match n with
  | O => ""
  | S n' => String " " (spaces n')
  end.

Definition write (s : string) (e : Emitter) : Emitter :=
  mkEmitter (s :: chunks e) (frames e) (flow_next e).

(** What precedes a node written into the innermost open collection;
    [block] says that the node is itself a block collection. *)
Definition lead (f : frame) (block : bool) : string :=
  match kind f, is_flow f with
  | SeqC, true => if Nat.eqb (children f) 0 then "" else ", "
  | SeqC, false =>
      (if Nat.eqb (children f) 0 then "" else nl ++ spaces (indent f)) ++ "- "
  | MapC, true =>
      if Nat.even (children f)
      then (if Nat.eqb (children f) 0 then "" else ", ")
      else ": "
  | MapC, false =>
      if Nat.even (children f)
      then (if Nat.eqb (children f) 0 then "" else nl ++ spaces (indent f))
      else (if block then ":" ++ nl ++ spaces (indent f + 2) else ": ")
  end.

Definition prepare (block : bool) (e : Emitter) : Emitter :=
  match frames e with
  | [] => e
  | f :: fs =>
      mkEmitter (lead f block :: chunks e)
                (mkFrame (kind f) (is_flow f) (indent f) (S (children f)) :: fs)
                (flow_next e)
  end.

Definition begin (k : coll) (e : Emitter) : Emitter :=
  let flow := match frames e with
              | [] => flow_next e
              | f :: _ => flow_next e || is_flow f
              end in
  let ind := match frames e with
             | [] => O
             | f :: _ => (indent f + 2)%nat
             end in
  let e := prepare (negb flow) e in
  let e := if flow then write (match k with SeqC => "[" | MapC => "{" end) e else e in
  mkEmitter (chunks e) (mkFrame k flow ind 0 :: frames e) false.

Definition finish (k : coll) (e : Emitter) : Emitter :=
  match frames e with
  | [] => e
  | f :: fs =>
      let closing := match k with SeqC => "]" | MapC => "}" end in
      let opening := match k with SeqC => "[" | MapC => "{" end in
      let e := if is_flow f then write closing e
               else if Nat.eqb (children f) 0 then write (opening ++ closing) e
               else e in
      mkEmitter (chunks e) fs (flow_next e)
  end.

Section Emit.

(** yaml-cpp's text for a [double]. *)
Variable fmt_double : float -> string.

(** [e << m]. *)
Definition put (e : Emitter) (m : manip) : Emitter :=
  match m with
  | BeginSeq => begin SeqC e
  | BeginMap => begin MapC e
  | EndSeq => finish SeqC e
  | EndMap => finish MapC e
  | Key | Value => e
  | Flow => mkEmitter (chunks e) (frames e) true
  | Str s => write s (prepare false e)
  | Dbl d => write (fmt_double d) (prepare false e)
  end.

End Emit.

(** *** Reading a log back

    A reader for the documents the logger writes: a block sequence of block
    mappings whose values are flow sequences of numbers.  A record is the
    list of its [(key, items)] pairs in the order read. *)

Definition record : Type := list (string * list string).

Definition is_digit (c : ascii) : bool :=
  (48 <=? nat_of_ascii c)%nat && (nat_of_ascii c <=? 57)%nat.

(** Characters a plain scalar inside a flow sequence may hold. *)
Definition plain_char (c : ascii) : bool :=
  negb (Ascii.eqb c "," || Ascii.eqb c "[" || Ascii.eqb c "]"
        || Ascii.eqb c "{" || Ascii.eqb c "}" || Ascii.eqb c " "
        || Ascii.eqb c (ascii_of_nat 10)).

Definition not_newline (c : ascii) : bool := negb (Ascii.eqb c (ascii_of_nat 10)).
Definition not_colon (c : ascii) : bool := negb (Ascii.eqb c ":").

Fixpoint all_chars (p : ascii -> bool) (s : string) : bool :=
  match s with
  | "" => true
  | String c s' => p c && all_chars p s'
  end.

Definition strip_sign (s : string) : string :=
  match s with
  | String c r => if Ascii.eqb c "-" || Ascii.eqb c "+" then r else s
  | "" => s
  end.

(** Drops the leading digits. *)
Fixpoint skip_digits (s : string) : string :=
  match s with
  | String c r => if is_digit c then skip_digits r else s
  | "" => s
  end.

(** At least one digit, then the rest. *)
Definition digits_then (s : string) : option string :=
  match s with
  | String c r => if is_digit c then Some (skip_digits r) else None
  | "" => None
  end.

(** A float of YAML's core schema: an optional sign, digits, optionally a
    point and more digits, optionally an exponent (the letter e, an optional
    sign, digits); or a signed [.inf]; or [.nan]. *)
Definition is_float (s : string) : bool :=
  if (s =? ".nan") || (strip_sign s =? ".inf") then true
  else
    match digits_then (strip_sign s) with
    | None => false
    | Some r =>
        let r := match r with
                 | String c r' => if Ascii.eqb c "." then skip_digits r' else r
                 | "" => r
                 end in
        match r with
        | "" => true
        | String c r' =>
            (Ascii.eqb c "e" || Ascii.eqb c "E")
            && match digits_then (strip_sign r') with
               | Some "" => true
               | _ => false
               end
        end
    end.

Definition numeric_scalar (s : string) : bool :=
  is_float s && all_chars plain_char s.

(** The items of a flow sequence after its opening bracket; [cur] is the
    item being read, [acc] the items read, latest first. *)
Fixpoint flow_items (s cur : string) (acc : list string) : option (list string) :=
  match s with
  | "" => None
  | String c s' =>
      if Ascii.eqb c "]" then
        if numeric_scalar cur && (s' =? "") then Some (rev (cur :: acc)) else None
      else if Ascii.eqb c "," then
        if numeric_scalar cur then flow_items s' "" (cur :: acc) else None
      else if Ascii.eqb c " " then
        if cur =? "" then flow_items s' cur acc else None
      else if plain_char c then flow_items s' (cur ++ String c "") acc
      else None
  end.

Definition flow_seq (s : string) : option (list string) :=
  match s with
  | String c s' => if Ascii.eqb c "[" then flow_items s' "" [] else None
  | "" => None
  end.

(** Splits [key: value] at the first colon followed by a space. *)
Fixpoint split_key (s : string) : option (string * string) :=
  match s with
  | "" => None
  | String c s' =>
      match s' with
      | String c' v =>
          if Ascii.eqb c ":" && Ascii.eqb c' " " then Some ("", v)
          else match split_key s' with
               | Some (k, v) => Some (String c k, v)
               | None => None
               end
      | "" => None
      end
  end.

Definition entry (s : string) : option (string * list string) :=
  match split_key s with
  | Some (k, v) =>
      match flow_seq v with
      | Some items => Some (k, items)
      | None => None
      end
  | None => None
  end.

Fixpoint lines (s : string) : list string :=
  match s with
  | "" => [""]
  | String c s' =>
      if Ascii.eqb c (ascii_of_nat 10) then "" :: lines s'
      else match lines s' with
           | l :: ls => String c l :: ls
           | [] => [String c ""]
           end
  end.

(** Groups the lines into records: a line starting with a dash opens a
    record, a line indented by two spaces continues the open one, empty
    lines are skipped.  [acc] holds the records read, latest first. *)
Fixpoint records (ls : list string) (acc : list record) : option (list record) :=
  match ls with
  | [] => Some (rev acc)
  | "" :: ls' => records ls' acc
  | String c1 (String c2 l) :: ls' =>
      if Ascii.eqb c1 "-" && Ascii.eqb c2 " " then
        match entry l with
        | Some kv => records ls' ([kv] :: acc)
        | None => None
        end
      else if Ascii.eqb c1 " " && Ascii.eqb c2 " " then
        match entry l, acc with
        | Some kv, r :: acc' => records ls' ((r ++ [kv])%list :: acc')
        | _, _ => None
        end
      else None
  | _ :: _ => None
  end.

Definition load (doc : string) : option (list record) := records (lines doc) [].

(** A record with exactly the two keys of the log, in this order, each
    mapped to a sequence of two numbers. *)
Definition two_pairs (r : record) : Prop :=
  map fst r = ["joint angles"; "end effector position"]
  /\ Forall (fun kv => List.length (snd kv) = 2%nat
                       /\ Forall (fun s => numeric_scalar s = true) (snd kv)) r.

End YAML.

(** ** The logger ([SensorMeasurementData]) *)

Definition Vector2d : Type := (float * float)%type.

Record SensorMeasurementData : Type := mkLogger {
  position_joint1_ : float;
  position_joint2_ : float;
  theta1_offset_ : float;
  theta2_offset_ : float;
  link_1_ : float;
  link_2_ : float;
  my_output_ : string;
  output_data_yaml_ : string;
  data_count_ : Z;
  data_num_max_ : Z
}.

(** The parameters the launch file sets on the node handle. *)
Record Params : Type := mkParams {
  data_point_count : Z;
  link_1 : float;
  link_2 : float;
  Theta1_offset : float;
  Theta2_offset : float
}.

(** The process and its surroundings, as far as the callback acts on them:
    the content of the file named [my_output_] ([None]: no such file), the
    ROS console, and how often [ros::shutdown()] was called. *)
Record World : Type := mkWorld {
  disk : option string;
  rosout : list rosout_line;
  shutdown_calls : nat
}.

(** One delivery of the subscription: the message, and whether
    [fout.open(my_output_)] succeeds this time. *)
Record Delivery : Type := mkDelivery {
  msg : JointState;
  can_open : bool
}.

(** The constructor, for a node handle on which all five parameters are
    set.  [pkg_path] is [ros::package::getPath("my_2d_robot")] and
    [date_holder] the text [strftime] wrote; the two joint positions are
    not initialised by the constructor, [junk1] and [junk2] stand for what
    the memory holds.  The subscription and the creation of the directory
    are left out. *)
Definition SensorMeasurementData_ctor (n : Params) (pkg_path date_holder : string)
    (junk1 junk2 : float) : SensorMeasurementData :=
  let check := (pkg_path ++ "/Output_yaml")%string in
  let my_output := check in
  let my_output := (my_output ++ "/" ++ date_holder)%string in
  let my_output := (my_output ++ "_output.yaml")%string in
  mkLogger junk1 junk2 (Theta1_offset n) (Theta2_offset n) (link_1 n) (link_2 n)
           my_output "" 0 (data_point_count n).

Section Logger.

(** libm. *)
Variables cos sin : float -> float.
(** yaml-cpp's text for a [double]. *)
Variable fmt_double : float -> string.

Local Open Scope float_scope.

(** [eePos]. *)
Definition eePos (self : SensorMeasurementData) (joint_1 joint_2 : float) : Vector2d :=
  let Theta1 := joint_1 - (theta1_offset_ self * M_PI / 180) in
  let Theta2 := joint_2 - (theta2_offset_ self * M_PI / 180) in
  ( (link_1_ self * cos (Theta1 * M_PI / 180))
      + (link_2_ self * cos ((Theta1 + Theta2) * M_PI / 180)),
    (link_1_ self * sin (Theta1 * M_PI / 180))
      + (link_2_ self * sin ((Theta1 + Theta2) * M_PI / 180)) ).

(** The end-effector position in the specification's words: effective
    angles [theta' = positions[i] - theta_offset * pi / 180], then the two-link
    equations with [f a = a * pi / 180] applied before [cos] and [sin]. *)
Definition spec_end_effector (link_1 link_2 theta1_offset theta2_offset : float)
    (positions0 positions1 : float) : Vector2d :=
  let theta1' := positions0 - theta1_offset * M_PI / 180 in
  let theta2' := positions1 - theta2_offset * M_PI / 180 in
  let f (a : float) := a * M_PI / 180 in
  let x := link_1 * cos (f theta1') + link_2 * cos (f (theta1' + theta2')) in
  let y := link_1 * sin (f theta1') + link_2 * sin (f (theta1' + theta2')) in
  (x, y).

Local Close Scope float_scope.

Notation "e << m" := (YAML.put fmt_double e m) (at level 50, left associativity).

(** [saveJointAnglesEepos]. *)
Definition saveJointAnglesEepos (self : SensorMeasurementData)
    (end_effector_position : Vector2d) : string :=
  let output_data_ := ""%string in
  let d_output := YAML.fresh in
  let d_output := d_output << YAML.BeginSeq in
  let d_output := d_output << YAML.BeginMap << YAML.Key << YAML.Str "joint angles"
                    << YAML.Value << YAML.Flow << YAML.BeginSeq
                    << YAML.Dbl (position_joint1_ self)
                    << YAML.Dbl (position_joint2_ self) << YAML.EndSeq in
  let d_output := d_output << YAML.Key << YAML.Str "end effector position"
                    << YAML.Value << YAML.Flow << YAML.BeginSeq
                    << YAML.Dbl (fst end_effector_position)
                    << YAML.Dbl (snd end_effector_position)
                    << YAML.EndSeq << YAML.EndMap in
  let d_output := d_output << YAML.EndSeq in
  let output_data_ := (output_data_ ++ YAML.c_str d_output)%string in
  let output_data_ := (output_data_ ++ YAML.nl)%string in
  output_data_.

Definition set_positions (self : SensorMeasurementData) (j1 j2 : float) :=
  mkLogger j1 j2 (theta1_offset_ self) (theta2_offset_ self) (link_1_ self)
           (link_2_ self) (my_output_ self) (output_data_yaml_ self)
           (data_count_ self) (data_num_max_ self).

Definition set_output_data_yaml (self : SensorMeasurementData) (s : string) :=
  mkLogger (position_joint1_ self) (position_joint2_ self) (theta1_offset_ self)
           (theta2_offset_ self) (link_1_ self) (link_2_ self) (my_output_ self)
           s (data_count_ self) (data_num_max_ self).

Definition set_data_count (self : SensorMeasurementData) (c : Z) :=
  mkLogger (position_joint1_ self) (position_joint2_ self) (theta1_offset_ self)
           (theta2_offset_ self) (link_1_ self) (link_2_ self) (my_output_ self)
           (output_data_yaml_ self) c (data_num_max_ self).

Definition say (l : rosout_line) (w : World) : World :=
  mkWorld (disk w) (rosout w ++ [l]) (shutdown_calls w).

Definition set_disk (content : option string) (w : World) : World :=
  mkWorld content (rosout w) (shutdown_calls w).

(** [ros::shutdown()]. *)
Definition ros_shutdown (w : World) : World :=
  mkWorld (disk w) (rosout w) (S (shutdown_calls w)).

(** [jointStatesCallback].  An [ofstream] that failed to open ignores what
    is streamed into it; one that opened has truncated the file. *)
Definition jointStatesCallback (st : SensorMeasurementData * World) (d : Delivery)
  : outcome (SensorMeasurementData * World) :=
  let '(self, w) := st in
  heard <- at_index (position (msg d)) 0 ;;
  let w := say (ROS_INFO "I heard: [%F]" heard) w in
  p0 <- at_index (position (msg d)) 0 ;;
  p1 <- at_index (position (msg d)) 1 ;;
  let self := set_positions self p0 p1 in
  let ee_position_ := eePos self (position_joint1_ self) (position_joint2_ self) in
  let fout_ok := can_open d in
  let w := if fout_ok then set_disk (Some ""%string) w else w in
  let w := if negb fout_ok then say (ROS_ERROR "error") w else w in
  let self := set_output_data_yaml self
                (output_data_yaml_ self ++ saveJointAnglesEepos self ee_position_)%string in
  count <- int_add (data_count_ self) 1 ;;
  let self := set_data_count self count in
  let stream := (output_data_yaml_ self ++ YAML.nl)%string in
  let w := if fout_ok
           then set_disk (option_map (fun old => (old ++ stream)%string) (disk w)) w
           else w in
  let w := if data_count_ self =? data_num_max_ self then ros_shutdown w else w in
  Ok (self, w).

(** Deliveries handed to the callback one after the other. *)
Fixpoint deliver (st : SensorMeasurementData * World) (ds : list Delivery)
  : outcome (SensorMeasurementData * World) :=
  match ds with
  | [] => Ok st
  | d :: ds' => st' <- jointStatesCallback st d ;; deliver st' ds'
  end.

(** *** What the log is expected to hold

    A log record is the pair of the joint angles as received and the
    end-effector position computed from them. *)

Definition LogRecord : Type := ((float * float) * Vector2d)%type.

(** The first two positions of a message. *)
Definition angles (m : JointState) : float * float :=
  (nth 0 (position m) 0%float, nth 1 (position m) 0%float).

Definition log_record (self : SensorMeasurementData) (d : Delivery) : LogRecord :=
  (angles (msg d), eePos self (fst (angles (msg d))) (snd (angles (msg d)))).

(** A mapping entry whose value is a flow sequence of two items. *)
Definition flow_line (k a b : string) : string :=
  (k ++ ": " ++ "[" ++ a ++ ", " ++ b ++ "]")%string.

(** The text of one record in the log: two lines. *)
Definition record_text (r : LogRecord) : string :=
  ("- " ++ flow_line "joint angles"
            (fmt_double (fst (fst r))) (fmt_double (snd (fst r)))
   ++ YAML.nl
   ++ "  " ++ flow_line "end effector position"
              (fmt_double (fst (snd r))) (fmt_double (snd (snd r)))
   ++ YAML.nl)%string.

(** The same record as a reader of the file sees it. *)
Definition record_read (r : LogRecord) : YAML.record :=
  [ ("joint angles"%string,
     [fmt_double (fst (fst r)); fmt_double (snd (fst r))]);
    ("end effector position"%string,
     [fmt_double (fst (snd r)); fmt_double (snd (snd r))]) ].

Definition join (l : list string) : string := fold_right append ""%string l.

(** A message the callback can index at 0 and 1. *)
Definition two_positions (d : Delivery) : Prop :=
  (2 <= List.length (position (msg d)))%nat.

(** The logger and the world after the callback has handled a delivery
    with two positions, in closed form (a device of the proofs:
    [callback_defined] shows that this is what the callback returns). *)
Definition logged (self : SensorMeasurementData) (d : Delivery) : SensorMeasurementData :=
  mkLogger (fst (angles (msg d))) (snd (angles (msg d)))
           (theta1_offset_ self) (theta2_offset_ self) (link_1_ self) (link_2_ self)
           (my_output_ self)
           (output_data_yaml_ self ++ record_text (log_record self d))%string
           (data_count_ self + 1) (data_num_max_ self).

Definition affected (self : SensorMeasurementData) (w : World) (d : Delivery) : World :=
  mkWorld (if can_open d
           then Some (output_data_yaml_ (logged self d) ++ YAML.nl)%string
           else disk w)
          (rosout w ++ ROS_INFO "I heard: [%F]" (fst (angles (msg d)))
                     :: (if can_open d then [] else [ROS_ERROR "error"]))
          (if data_count_ self + 1 =? data_num_max_ self
           then S (shutdown_calls w) else shutdown_calls w).

(** The logger and the world after a run of deliveries with two positions
    each, in closed form ([deliver_settled] shows that this is what
    [deliver] returns). *)
Fixpoint settled (self : SensorMeasurementData) (w : World) (ds : list Delivery)
  : SensorMeasurementData * World :=
  match ds with
  | [] => (self, w)
  | d :: ds' => settled (logged self d) (affected self w d) ds'
  end.

(** The console lines a delivery is expected to leave. *)
Definition console_lines (d : Delivery) : list rosout_line :=
  ROS_INFO "I heard: [%F]" (nth 0 (position (msg d)) 0%float)
  :: (if can_open d then [] else [ROS_ERROR "error"]).

(** The records a reader finds in the output file. *)
Definition file_records (w : World) : option (list YAML.record) :=
  match disk w with
  | Some txt => YAML.load txt
  | None => None
  end.

(** How often a counter that goes from [c] up by [n], one at a time, meets
    [target]. *)
Definition meets (c target : Z) (n : nat) : nat :=
  if (c <? target) && (target <=? c + Z.of_nat n) then 1%nat else 0%nat.

(** The fields the constructor reads from the parameters and the callback
    never writes. *)
Definition same_config (a b : SensorMeasurementData) : Prop :=
  theta1_offset_ a = theta1_offset_ b /\ theta2_offset_ a = theta2_offset_ b
  /\ link_1_ a = link_1_ b /\ link_2_ a = link_2_ b
  /\ my_output_ a = my_output_ b /\ data_num_max_ a = data_num_max_ b.

End Logger.

(** ** An instance of the external parameters

    Concrete stand-ins for libm and for yaml-cpp's number formatting, to run
    the model on examples: Taylor polynomials for [cos] and [sin] (with
    offsets of zero the angles the logger passes for the publisher's
    positions are below 0.11), and a formatter that writes the exact value
    of a double in decimal with a power-of-ten exponent. *)

Module Sample.

Local Open Scope float_scope.

Definition cos (x : float) : float :=
  1 - x * x / 2 + x * x * x * x / 24.

Definition sin (x : float) : float :=
  x - x * x * x / 6 + x * x * x * x * x / 120.

Local Close Scope float_scope.
Local Open Scope string_scope.

Definition digits (n : Z) : string :=
  DecimalString.NilEmpty.string_of_uint (N.to_uint (Z.to_N n)).

Definition exact_decimal (d : float) : string :=
  match Prim2SF d with
  | S754_zero s => if s then "-0" else "0"
  | S754_infinity s => if s then "-.inf" else ".inf"
  | S754_nan => ".nan"
  | S754_finite s m e =>
      let g := Z.gcd (Zpos m) (2 ^ (- e)) in
      let m' := (Zpos m / g)%Z in
      let k := (- e - Z.log2 g)%Z in
      (if s then "-" else "")
      ++ (if (0 <=? e)%Z then digits (Zpos m * 2 ^ e)
          else if (k =? 0)%Z then digits m'
          else digits (m' * 5 ^ k) ++ "e-" ++ digits k)
  end.

(** Falls back on [.nan] should the text not read as a number. *)
Definition fmt_double (d : float) : string :=
  let s := exact_decimal d in
  if YAML.numeric_scalar s then s else ".nan".

Definition params : Params := mkParams 3 1 1 0 0.

Definition logger0 : SensorMeasurementData :=
  SensorMeasurementData_ctor params "/opt/ros/my_2d_robot" "02_11_2026_10:00:00" 0 0.

Definition world0 : World := mkWorld None [] 0.

Definition sample (a b : Z) (ok : bool) : Delivery :=
  mkDelivery (mkJointState 0 ["joint1"; "joint2"]
                [Publisher.joint_pos a; Publisher.joint_pos b]) ok.

Definition run (ds : list Delivery) :=
  deliver cos sin fmt_double (logger0, world0) ds.

Definition three : list Delivery :=
  [sample 0 0 true; sample 150 25 false; sample 314 7 true].

Definition run_from (n : Params) (ds : list Delivery) :=
  deliver cos sin fmt_double
    (SensorMeasurementData_ctor n "/opt/ros/my_2d_robot" "02_11_2026_10:00:00" 0 0, world0)
    ds.

(** A message with a single position. *)
Definition short_message : Delivery :=
  mkDelivery (mkJointState 0 ["joint1"] [Publisher.joint_pos 150]) true.

(** Parameters with a target that is not positive. *)
Definition params_no_target : Params := mkParams 0 1 1 0 0.

End Sample.

(** * Properties *)

(** ** Strings *)

Section StringFacts.

Local Open Scope string_scope.

Lemma append_assoc (a b c : string) : (a ++ b) ++ c = a ++ (b ++ c).
Proof.
  induction a as [|x a IH]; simpl; [reflexivity|].
  now rewrite IH.
Qed.

Lemma append_nil_r (a : string) : a ++ "" = a.
Proof.
  induction a as [|x a IH]; simpl; [reflexivity|].
  now rewrite IH.
Qed.

Lemma all_chars_app (p : ascii -> bool) (a b : string) :
  YAML.all_chars p (a ++ b) = YAML.all_chars p a && YAML.all_chars p b.
Proof.
  induction a as [|x a IH]; simpl; [reflexivity|].
  now rewrite IH, andb_assoc.
Qed.

Lemma all_chars_weaken (p q : ascii -> bool) (s : string) :
  (forall c, p c = true -> q c = true) ->
  YAML.all_chars p s = true -> YAML.all_chars q s = true.
Proof.
  intros Hpq. induction s as [|x s IH]; simpl; [reflexivity|].
  rewrite andb_true_iff. intros [Hx Hs].
  now rewrite (Hpq _ Hx), IH.
Qed.

End StringFacts.

(** ** The reader accepts what the emitter writes *)

Section Reading.

Local Open Scope string_scope.

Lemma plain_char_cases (c : ascii) :
  YAML.plain_char c = true ->
  Ascii.eqb c "]" = false /\ Ascii.eqb c "," = false /\ Ascii.eqb c " " = false
  /\ Ascii.eqb c (ascii_of_nat 10) = false.
Proof.
  unfold YAML.plain_char. rewrite negb_true_iff, !orb_false_iff. tauto.
Qed.

Lemma plain_no_newline (c : ascii) : YAML.plain_char c = true -> YAML.not_newline c = true.
Proof.
  intros H. apply plain_char_cases in H. unfold YAML.not_newline.
  now destruct H as (_ & _ & _ & ->).
Qed.

Lemma flow_items_scalar (s : string) :
  YAML.all_chars YAML.plain_char s = true ->
  forall rest cur acc,
    YAML.flow_items (s ++ rest) cur acc = YAML.flow_items rest (cur ++ s) acc.
Proof.
  induction s as [|c s IH]; simpl; intros Hs rest cur acc.
  - now rewrite append_nil_r.
  - apply andb_true_iff in Hs. destruct Hs as [Hc Hs].
    destruct (plain_char_cases c Hc) as (E1 & E2 & E3 & _).
    rewrite E1, E2, E3, Hc, (IH Hs), append_assoc. reflexivity.
Qed.

Lemma flow_seq_pair (a b : string) :
  YAML.numeric_scalar a = true -> YAML.numeric_scalar b = true ->
  YAML.flow_seq ("[" ++ a ++ ", " ++ b ++ "]") = Some [a; b].
Proof.
  intros Ha Hb.
  assert (Pa : YAML.all_chars YAML.plain_char a = true)
    by (unfold YAML.numeric_scalar in Ha; apply andb_true_iff in Ha; tauto).
  assert (Pb : YAML.all_chars YAML.plain_char b = true)
    by (unfold YAML.numeric_scalar in Hb; apply andb_true_iff in Hb; tauto).
  cbn [YAML.flow_seq append Ascii.eqb Bool.eqb].
  rewrite (flow_items_scalar a Pa).
  cbn [YAML.flow_items append Ascii.eqb Bool.eqb String.eqb]. rewrite Ha.
  rewrite (flow_items_scalar b Pb).
  cbn [YAML.flow_items append Ascii.eqb Bool.eqb String.eqb andb]. rewrite Hb.
  reflexivity.
Qed.

Lemma split_key_found (k v : string) :
  YAML.all_chars YAML.not_colon k = true ->
  YAML.split_key (k ++ ": " ++ v) = Some (k, v).
Proof.
  induction k as [|c k IH]; intros Hk.
  - reflexivity.
  - simpl in Hk. apply andb_true_iff in Hk. destruct Hk as [Hc Hk].
    unfold YAML.not_colon in Hc. apply negb_true_iff in Hc.
    specialize (IH Hk).
    change ((String c k) ++ ": " ++ v) with (String c (k ++ ": " ++ v)).
    cbn [YAML.split_key]. rewrite IH, Hc.
    destruct k; reflexivity.
Qed.

Lemma entry_pair (k a b : string) :
  YAML.all_chars YAML.not_colon k = true ->
  YAML.numeric_scalar a = true -> YAML.numeric_scalar b = true ->
  YAML.entry (k ++ ": " ++ "[" ++ a ++ ", " ++ b ++ "]") = Some (k, [a; b]).
Proof.
  intros Hk Ha Hb. unfold YAML.entry.
  now rewrite (split_key_found k _ Hk), (flow_seq_pair a b Ha Hb).
Qed.

Lemma lines_cons (l rest : string) :
  YAML.all_chars YAML.not_newline l = true ->
  YAML.lines (l ++ YAML.nl ++ rest) = l :: YAML.lines rest.
Proof.
  induction l as [|c l IH]; intros Hl.
  - reflexivity.
  - simpl in Hl. apply andb_true_iff in Hl. destruct Hl as [Hc Hl].
    unfold YAML.not_newline in Hc. apply negb_true_iff in Hc.
    change ((String c l) ++ YAML.nl ++ rest) with (String c (l ++ YAML.nl ++ rest)).
    cbn [YAML.lines]. rewrite Hc, (IH Hl). reflexivity.
Qed.

End Reading.

(** ** The log file reads back as the records that were logged *)

Section LogText.

Variable fmt_double : float -> string.
Hypothesis fmt_numeric : forall d, YAML.numeric_scalar (fmt_double d) = true.

Local Open Scope string_scope.

Lemma saveJointAnglesEepos_text (self : SensorMeasurementData) (ee : Vector2d) :
  saveJointAnglesEepos fmt_double self ee
  = record_text fmt_double ((position_joint1_ self, position_joint2_ self), ee).
Proof.
  unfold saveJointAnglesEepos, record_text, flow_line, YAML.c_str.
  cbn. repeat (rewrite append_assoc; cbn [append]). reflexivity.
Qed.

Lemma fmt_plain (d : float) : YAML.all_chars YAML.plain_char (fmt_double d) = true.
Proof.
  specialize (fmt_numeric d). unfold YAML.numeric_scalar in fmt_numeric.
  apply andb_true_iff in fmt_numeric. tauto.
Qed.

Lemma flow_line_one_line (k a b : string) :
  YAML.all_chars YAML.not_newline k = true ->
  YAML.all_chars YAML.plain_char a = true ->
  YAML.all_chars YAML.plain_char b = true ->
  YAML.all_chars YAML.not_newline (flow_line k a b) = true.
Proof.
  intros Hk Ha Hb. unfold flow_line.
  apply (all_chars_weaken _ _ _ plain_no_newline) in Ha, Hb.
  rewrite !all_chars_app, Hk, Ha, Hb. reflexivity.
Qed.

Lemma lines_record (l1 l2 rest : string) :
  YAML.all_chars YAML.not_newline l1 = true ->
  YAML.all_chars YAML.not_newline l2 = true ->
  YAML.lines (("- " ++ l1 ++ YAML.nl ++ "  " ++ l2 ++ YAML.nl) ++ rest)
  = ("- " ++ l1) :: ("  " ++ l2) :: YAML.lines rest.
Proof.
  intros H1 H2.
  replace (("- " ++ l1 ++ YAML.nl ++ "  " ++ l2 ++ YAML.nl) ++ rest)
    with (("- " ++ l1) ++ YAML.nl ++ (("  " ++ l2) ++ YAML.nl ++ rest))
    by (unfold YAML.nl; repeat (rewrite append_assoc; cbn [append]); reflexivity).
  rewrite lines_cons by exact H1.
  rewrite lines_cons by exact H2.
  reflexivity.
Qed.

Lemma records_record (l1 l2 : string) kv1 kv2 (ls : list string) (acc : list YAML.record) :
  YAML.entry l1 = Some kv1 ->
  YAML.entry l2 = Some kv2 ->
  YAML.records (("- " ++ l1) :: ("  " ++ l2) :: ls) acc
  = YAML.records ls ([kv1; kv2] :: acc).
Proof.
  intros E1 E2.
  change ("- " ++ l1) with (String "-" (String " " l1)).
  change ("  " ++ l2) with (String " " (String " " l2)).
  cbn [YAML.records]. rewrite E1.
  cbn [Ascii.eqb Bool.eqb andb]. rewrite E2.
  reflexivity.
Qed.

Lemma records_of_text (rs : list LogRecord) :
  forall acc,
    YAML.records (YAML.lines (join (map (record_text fmt_double) rs) ++ YAML.nl)) acc
    = Some (rev acc ++ map (record_read fmt_double) rs)%list.
Proof.
  induction rs as [|r rs IH]; intros acc.
  - cbn. now rewrite app_nil_r.
  - cbn [map join fold_right]. fold (join (map (record_text fmt_double) rs)).
    unfold record_text at 1. rewrite (append_assoc _ (join _)).
    rewrite lines_record
      by (apply flow_line_one_line; [reflexivity | apply fmt_plain | apply fmt_plain]).
    rewrite (records_record _ _ ("joint angles", _) ("end effector position", _))
      by (apply entry_pair; [reflexivity | apply fmt_numeric | apply fmt_numeric]).
    rewrite IH. cbn [rev]. rewrite <- app_assoc. reflexivity.
Qed.

(** The file content after a write reads back as the logged records. *)
Lemma load_log (rs : list LogRecord) :
  YAML.load (join (map (record_text fmt_double) rs) ++ YAML.nl)
  = Some (map (record_read fmt_double) rs).
Proof.
  unfold YAML.load. now rewrite records_of_text.
Qed.

End LogText.

(** ** One delivery *)

Section Callback.

Variables cos sin : float -> float.
Variable fmt_double : float -> string.

Abbreviation callback := (jointStatesCallback cos sin fmt_double).
Abbreviation run := (deliver cos sin fmt_double).

Lemma two_positions_nth (d : Delivery) :
  two_positions d ->
  nth_error (position (msg d)) 0 = Some (fst (angles (msg d)))
  /\ nth_error (position (msg d)) 1 = Some (snd (angles (msg d))).
Proof.
  unfold two_positions, angles.
  destruct (position (msg d)) as [|p0 [|p1 rest]]; cbn; intros H; try lia.
  split; reflexivity.
Qed.

Lemma callback_defined (self : SensorMeasurementData) (w : World) (d : Delivery) :
  two_positions d ->
  in_int (data_count_ self + 1) = true ->
  callback (self, w) d
  = Ok (logged cos sin fmt_double self d, affected cos sin fmt_double self w d).
Proof.
  intros Hd Hc. destruct (two_positions_nth d Hd) as [H0 H1].
  unfold jointStatesCallback, at_index, int_add.
  rewrite H0, H1. cbn [bind data_count_ set_output_data_yaml set_positions].
  rewrite Hc. cbn [bind].
  rewrite saveJointAnglesEepos_text.
  unfold logged, affected, log_record, set_data_count, set_disk, say, ros_shutdown.
  cbn -[record_text eePos Z.add].
  destruct (can_open d), (data_count_ self + 1 =? data_num_max_ self);
    cbn -[record_text eePos Z.add]; rewrite <- ?app_assoc; reflexivity.
Qed.

Lemma same_config_refl (a : SensorMeasurementData) : same_config a a.
Proof. unfold same_config. tauto. Qed.

Lemma same_config_trans (a b c : SensorMeasurementData) :
  same_config a b -> same_config b c -> same_config a c.
Proof. unfold same_config. intuition congruence. Qed.

Lemma same_config_logged (self : SensorMeasurementData) (d : Delivery) :
  same_config self (logged cos sin fmt_double self d).
Proof. unfold same_config, logged. cbn. tauto. Qed.

Lemma log_record_config (a b : SensorMeasurementData) (d : Delivery) :
  same_config a b -> log_record cos sin a d = log_record cos sin b d.
Proof.
  unfold same_config, log_record, eePos.
  intros (-> & -> & -> & -> & _). reflexivity.
Qed.

Lemma deliver_app (st : SensorMeasurementData * World) (ds1 ds2 : list Delivery) :
  run st (ds1 ++ ds2) = (st' <- run st ds1 ;; run st' ds2).
Proof.
  revert st. induction ds1 as [|d ds1 IH]; intros st; cbn [deliver app bind].
  - reflexivity.
  - destruct (callback st d) as [st'|u]; cbn [bind]; [apply IH | reflexivity].
Qed.

Lemma meets_step (c target : Z) (n : nat) :
  ((if (c + 1 =? target)%Z then 1 else 0) + meets (c + 1)%Z target n)%nat
  = meets c target (S n).
Proof.
  unfold meets. rewrite Nat2Z.inj_succ.
  destruct (Z.eqb_spec (c + 1) target);
    destruct (Z.ltb_spec (c + 1) target);
    destruct (Z.leb_spec target (c + 1 + Z.of_nat n));
    destruct (Z.ltb_spec c target);
    destruct (Z.leb_spec target (c + Z.succ (Z.of_nat n)));
    cbn; try reflexivity; exfalso; lia.
Qed.

Lemma deliver_defined (ds : list Delivery) :
  forall (self : SensorMeasurementData) (w : World),
    Forall two_positions ds ->
    INT_MIN <= data_count_ self ->
    data_count_ self + Z.of_nat (List.length ds) <= INT_MAX ->
    exists self' w',
      run (self, w) ds = Ok (self', w')
      /\ same_config self self'
      /\ data_count_ self' = data_count_ self + Z.of_nat (List.length ds)
      /\ output_data_yaml_ self'
         = (output_data_yaml_ self
            ++ join (map (record_text fmt_double) (map (log_record cos sin self) ds)))%string
      /\ shutdown_calls w'
         = (shutdown_calls w
            + meets (data_count_ self) (data_num_max_ self) (List.length ds))%nat.
Proof.
  induction ds as [|d ds IH]; intros self w Hds Hlo Hhi.
  - exists self, w. cbn [deliver map join fold_right List.length].
    rewrite append_nil_r. unfold meets.
    replace (data_count_ self + Z.of_nat 0) with (data_count_ self) by lia.
    repeat split; try apply same_config_refl.
    destruct (Z.ltb_spec (data_count_ self) (data_num_max_ self));
      destruct (Z.leb_spec (data_num_max_ self) (data_count_ self)); cbn; lia.
  - inversion Hds as [|? ? Hd Hds']; subst.
    cbn [List.length] in Hhi. rewrite Nat2Z.inj_succ in Hhi.
    assert (Hc : in_int (data_count_ self + 1) = true).
    { unfold in_int. apply andb_true_iff. split; apply Z.leb_le; lia. }
    cbn [deliver]. rewrite (callback_defined self w d Hd Hc). cbn [bind].
    destruct (IH (logged cos sin fmt_double self d) (affected cos sin fmt_double self w d) Hds')
      as (self' & w' & Hrun & Hcfg & Hcount & Hlog & Hshut).
    { cbn [logged data_count_]. lia. }
    { cbn [logged data_count_]. lia. }
    exists self', w'. split; [exact Hrun|].
    pose proof (same_config_logged self d) as Hcfg1.
    split; [exact (same_config_trans _ _ _ Hcfg1 Hcfg)|].
    split; [rewrite Hcount; cbn [logged data_count_ List.length]; lia|].
    split.
    + rewrite Hlog. cbn [logged output_data_yaml_ map join fold_right].
      rewrite append_assoc. reflexivity.
    + rewrite Hshut. cbn [logged affected shutdown_calls data_count_ data_num_max_ List.length].
      rewrite <- meets_step.
      destruct (data_count_ self + 1 =? data_num_max_ self); lia.
Qed.

End Callback.

(** ** The publisher's positions *)

Section PublisherFacts.

Import Publisher.

Lemma residues_checked : forallb (fun k => near_hundredth k (joint_pos k)) residues = true.
Proof. vm_compute. reflexivity. Qed.

Lemma rem_in_residues (r : Z) : 0 <= r -> In (Z.rem r 315) residues.
Proof.
  intros Hr. pose proof (Z.rem_bound_pos r 315 Hr ltac:(lia)) as Hk.
  unfold residues. rewrite <- (Z2Nat.id (Z.rem r 315)) by lia.
  apply in_map, in_seq. lia.
Qed.

Lemma joint_pos_rem (r : Z) : joint_pos r = joint_pos (Z.rem r 315).
Proof.
  unfold joint_pos. now rewrite Z.rem_rem by lia.
Qed.

Lemma joint_pos_near (r : Z) :
  0 <= r -> near_hundredth (Z.rem r 315) (joint_pos r) = true.
Proof.
  intros Hr. rewrite joint_pos_rem.
  exact (proj1 (forallb_forall _ _) residues_checked _ (rem_in_residues r Hr)).
Qed.

Lemma near_hundredth_value (k : Z) (p : float) :
  near_hundredth k p = true ->
  exists q, exact_value p = Some q
            /\ (0 <= q)%Q /\ (q <= top_value)%Q
            /\ (Qabs (q - (k # 100)) <= 1 # 8388608)%Q.
Proof.
  unfold near_hundredth. destruct (exact_value p) as [q|]; [|discriminate].
  rewrite !andb_true_iff, !Qle_bool_iff. intros [[H0 H1] H2].
  exists q. tauto.
Qed.

(** C7, as amended: each published position is the binary32 rounding of
    [k/100] for the integer [k = rand() % 315] of its own draw, with
    [0 <= k < 315]; its exact value lies between 0 and
    3.1400001049041748046875 and is within 2^-23 of [k/100]. *)
Theorem published_positions_near_hundredths
    (joint_state : JointState) (now r1 r2 : Z) :
  0 <= r1 <= RAND_MAX -> 0 <= r2 <= RAND_MAX ->
  exists p1 p2 q1 q2,
    loop_body joint_state now r1 r2
    = Ok (mkJointState now ["joint1"; "joint2"]%string [p1; p2], ROS_INFO "%F" p1)
    /\ 0 <= Z.rem r1 315 < 315 /\ 0 <= Z.rem r2 315 < 315
    /\ p1 = float_of_double (PrimFloat.div (double_of_int (Z.rem r1 315)) 100%float)
    /\ p2 = float_of_double (PrimFloat.div (double_of_int (Z.rem r2 315)) 100%float)
    /\ exact_value p1 = Some q1 /\ exact_value p2 = Some q2
    /\ (0 <= q1)%Q /\ (q1 <= top_value)%Q
    /\ (Qabs (q1 - (Z.rem r1 315 # 100)) <= 1 # 8388608)%Q
    /\ (0 <= q2)%Q /\ (q2 <= top_value)%Q
    /\ (Qabs (q2 - (Z.rem r2 315 # 100)) <= 1 # 8388608)%Q.
Proof.
  intros [H1 _] [H2 _].
  destruct (near_hundredth_value _ _ (joint_pos_near r1 H1)) as (q1 & E1 & A1 & B1 & C1).
  destruct (near_hundredth_value _ _ (joint_pos_near r2 H2)) as (q2 & E2 & A2 & B2 & C2).
  exists (joint_pos r1), (joint_pos r2), q1, q2.
  pose proof (Z.rem_bound_pos r1 315 H1 ltac:(lia)).
  pose proof (Z.rem_bound_pos r2 315 H2 ltac:(lia)).
  repeat split; try assumption; try lia.
Qed.

Lemma published_positions_near_hundredths_witness :
  exists p1 p2 q1 q2,
    loop_body (mkJointState 0 [] []) 7 150 314
    = Ok (mkJointState 7 ["joint1"; "joint2"]%string [p1; p2], ROS_INFO "%F" p1)
    /\ 0 <= Z.rem 150 315 < 315 /\ 0 <= Z.rem 314 315 < 315
    /\ p1 = float_of_double (PrimFloat.div (double_of_int (Z.rem 150 315)) 100%float)
    /\ p2 = float_of_double (PrimFloat.div (double_of_int (Z.rem 314 315)) 100%float)
    /\ exact_value p1 = Some q1 /\ exact_value p2 = Some q2
    /\ (0 <= q1)%Q /\ (q1 <= top_value)%Q
    /\ (Qabs (q1 - (Z.rem 150 315 # 100)) <= 1 # 8388608)%Q
    /\ (0 <= q2)%Q /\ (q2 <= top_value)%Q
    /\ (Qabs (q2 - (Z.rem 314 315 # 100)) <= 1 # 8388608)%Q.
Proof.
  apply (published_positions_near_hundredths (mkJointState 0 [] []) 7 150 314);
    unfold RAND_MAX; lia.
Defined.

(** C7, as stated, fails: when [rand()] returns 314 the published position
    is 3.1400001049041748046875, above 3.14 (both as an exact value and in
    [double] comparison with [314 / 100.0]) and not an integer multiple of
    one hundredth. *)
Lemma published_position_above_3_14 :
  exists p,
    loop_body (mkJointState 0 [] []) 0 314 0
    = Ok (mkJointState 0 ["joint1"; "joint2"]%string [p; 0%float], ROS_INFO "%F" p)
    /\ exact_value p = Some (13170115 # 4194304)
    /\ (314 # 100 < 13170115 # 4194304)%Q
    /\ PrimFloat.ltb (PrimFloat.div (double_of_int 314) 100%float) p = true
    /\ (forall k : Z, ~ (13170115 # 4194304 == k # 100)%Q).
Proof.
  exists (joint_pos 314).
  split; [vm_compute; reflexivity|].
  split; [vm_compute; reflexivity|].
  split; [reflexivity|].
  split; [vm_compute; reflexivity|].
  intros k. unfold Qeq. cbn [Qnum Qden]. lia.
Qed.

End PublisherFacts.

(** ** The sample instance meets the assumptions *)

Lemma sample_fmt_numeric (d : float) : YAML.numeric_scalar (Sample.fmt_double d) = true.
Proof.
  unfold Sample.fmt_double.
  destruct (YAML.numeric_scalar (Sample.exact_decimal d)) eqn:E; [exact E | reflexivity].
Qed.

Lemma sample_two_positions (a b : Z) (ok : bool) : two_positions (Sample.sample a b ok).
Proof. unfold two_positions. cbn. lia. Qed.

(** ** The claims about the logger *)

Section Claims.

Variables cos sin : float -> float.
Variable fmt_double : float -> string.

Abbreviation callback := (jointStatesCallback cos sin fmt_double).
Abbreviation run := (deliver cos sin fmt_double).

Lemma count_in_int (c : Z) : INT_MIN <= c < INT_MAX -> in_int (c + 1) = true.
Proof.
  intros H. unfold in_int. apply andb_true_iff. split; apply Z.leb_le; lia.
Qed.

Lemma eePos_spec (self : SensorMeasurementData) (j1 j2 : float) :
  eePos cos sin self j1 j2
  = spec_end_effector cos sin (link_1_ self) (link_2_ self)
      (theta1_offset_ self) (theta2_offset_ self) j1 j2.
Proof. reflexivity. Qed.

(** C1: [eePos] computes the specification's two-link equations, with the
    offsets converted by [* pi / 180] and the corrected angles multiplied
    by [pi / 180] once more before [cos] and [sin]; and for a message with
    two positions the callback logs exactly this position for the received
    angles. *)
Theorem eePos_as_specified (self : SensorMeasurementData) (w : World) (d : Delivery) :
  two_positions d ->
  INT_MIN <= data_count_ self < INT_MAX ->
  (forall j1 j2,
      eePos cos sin self j1 j2
      = spec_end_effector cos sin (link_1_ self) (link_2_ self)
          (theta1_offset_ self) (theta2_offset_ self) j1 j2)
  /\ exists self' w',
       callback (self, w) d = Ok (self', w')
       /\ output_data_yaml_ self'
          = (output_data_yaml_ self
             ++ record_text fmt_double
                  (angles (msg d),
                   spec_end_effector cos sin (link_1_ self) (link_2_ self)
                     (theta1_offset_ self) (theta2_offset_ self)
                     (nth 0 (position (msg d)) 0%float)
                     (nth 1 (position (msg d)) 0%float)))%string.
Proof.
  intros Hd Hc. split; [intros; apply eePos_spec|].
  eexists _, _. split.
  - apply callback_defined; [exact Hd | now apply count_in_int].
  - reflexivity.
Qed.

Lemma join_app (a b : list string) : join (a ++ b) = (join a ++ join b)%string.
Proof.
  induction a as [|x a IH]; cbn [app join fold_right]; [reflexivity|].
  fold (join (a ++ b)). fold (join a). now rewrite IH, append_assoc.
Qed.

Lemma last_write (ds : list Delivery) (d : Delivery)
    (self : SensorMeasurementData) (w : World) :
  Forall two_positions (ds ++ [d]) ->
  INT_MIN <= data_count_ self ->
  data_count_ self + Z.of_nat (List.length (ds ++ [d])) <= INT_MAX ->
  can_open d = true ->
  forall self' w',
    run (self, w) (ds ++ [d]) = Ok (self', w') ->
    disk w' = Some (output_data_yaml_ self' ++ YAML.nl)%string.
Proof.
  intros Hall Hlo Hhi Hopen self' w'.
  apply Forall_app in Hall. destruct Hall as [Hds Hd].
  inversion Hd as [|? ? Hd' _]; subst.
  rewrite length_app in Hhi. cbn [List.length] in Hhi.
  destruct (deliver_defined cos sin fmt_double ds self w Hds Hlo ltac:(lia))
    as (s1 & w1 & Hrun & _ & Hcount & _).
  rewrite deliver_app, Hrun. cbn [bind deliver].
  rewrite callback_defined by (try assumption; apply count_in_int; lia).
  cbn [bind]. intros [= <- <-].
  cbn [affected disk]. now rewrite Hopen.
Qed.

(** C2, as amended: the callback has no guard of its own.  After exactly
    [sample_target] deliveries the shutdown request has been issued once;
    a further sample handed to the callback is processed like any other
    (count incremented, record appended, file rewritten when it opens),
    and no second shutdown request is issued. *)
Theorem sample_after_target_is_processed
    (n : Params) (pkg date : string) (junk1 junk2 : float) (w : World)
    (ds : list Delivery) (d : Delivery) :
  1 <= data_point_count n < INT_MAX ->
  Z.of_nat (List.length ds) = data_point_count n ->
  Forall two_positions ds ->
  two_positions d ->
  exists st st',
    run (SensorMeasurementData_ctor n pkg date junk1 junk2, w) ds = Ok st
    /\ data_count_ (fst st) = data_point_count n
    /\ shutdown_calls (snd st) = S (shutdown_calls w)
    /\ callback st d = Ok st'
    /\ data_count_ (fst st') = data_point_count n + 1
    /\ output_data_yaml_ (fst st')
       = (output_data_yaml_ (fst st)
          ++ record_text fmt_double (log_record cos sin (fst st) d))%string
    /\ (can_open d = true ->
        disk (snd st') = Some (output_data_yaml_ (fst st') ++ YAML.nl)%string)
    /\ shutdown_calls (snd st') = shutdown_calls (snd st).
Proof.
  intros Hn Hlen Hds Hd.
  destruct (deliver_defined cos sin fmt_double ds
              (SensorMeasurementData_ctor n pkg date junk1 junk2) w Hds)
    as (s1 & w1 & Hrun & Hcfg & Hcount & _ & Hshut).
  { cbn. unfold INT_MIN. lia. }
  { cbn [SensorMeasurementData_ctor data_count_]. lia. }
  cbn [SensorMeasurementData_ctor data_count_ data_num_max_] in Hcount, Hshut.
  assert (Hmax : data_num_max_ s1 = data_point_count n).
  { destruct Hcfg as (_ & _ & _ & _ & _ & <-). reflexivity. }
  exists (s1, w1), (logged cos sin fmt_double s1 d, affected cos sin fmt_double s1 w1 d).
  cbn [fst snd]. split; [exact Hrun|].
  split; [lia|].
  split.
  { rewrite Hshut. unfold meets. rewrite Hlen.
    destruct (Z.ltb_spec 0 (data_point_count n)); [|lia].
    destruct (Z.leb_spec (data_point_count n) (0 + data_point_count n)); [|lia].
    cbn. lia. }
  split.
  { apply callback_defined; [exact Hd|]. apply count_in_int. unfold INT_MIN. lia. }
  split; [cbn [logged data_count_]; lia|].
  split; [reflexivity|].
  split.
  { intros Hopen. cbn [affected disk]. now rewrite Hopen. }
  cbn [affected shutdown_calls]. rewrite Hmax.
  destruct (Z.eqb_spec (data_count_ s1 + 1) (data_point_count n)); [lia | reflexivity].
Qed.

(** C3: the count is 0 after construction; delivering [N] samples with
    [N <= sample_target] leaves it at exactly [N]; and each invocation of
    the callback on the way raises it by exactly 1. *)
Theorem count_equals_samples_delivered
    (n : Params) (pkg date : string) (junk1 junk2 : float) (w : World)
    (ds : list Delivery) :
  Forall two_positions ds ->
  Z.of_nat (List.length ds) <= data_point_count n ->
  data_point_count n <= INT_MAX ->
  data_count_ (SensorMeasurementData_ctor n pkg date junk1 junk2) = 0
  /\ (exists st,
        run (SensorMeasurementData_ctor n pkg date junk1 junk2, w) ds = Ok st
        /\ data_count_ (fst st) = Z.of_nat (List.length ds))
  /\ (forall pre d post,
        ds = (pre ++ d :: post)%list ->
        exists st st',
          run (SensorMeasurementData_ctor n pkg date junk1 junk2, w) pre = Ok st
          /\ callback st d = Ok st'
          /\ data_count_ (fst st') = data_count_ (fst st) + 1).
Proof.
  intros Hds Hlen Hmax. split; [reflexivity|]. split.
  - destruct (deliver_defined cos sin fmt_double ds
                (SensorMeasurementData_ctor n pkg date junk1 junk2) w Hds)
      as (s1 & w1 & Hrun & _ & Hcount & _).
    { cbn. unfold INT_MIN. lia. }
    { cbn [SensorMeasurementData_ctor data_count_]. lia. }
    exists (s1, w1). split; [exact Hrun|]. exact Hcount.
  - intros pre d post ->.
    apply Forall_app in Hds. destruct Hds as [Hpre Hrest].
    inversion Hrest as [|? ? Hd _]; subst.
    rewrite length_app in Hlen. cbn [List.length] in Hlen.
    destruct (deliver_defined cos sin fmt_double pre
                (SensorMeasurementData_ctor n pkg date junk1 junk2) w Hpre)
      as (s1 & w1 & Hrun & _ & Hcount & _).
    { cbn. unfold INT_MIN. lia. }
    { cbn [SensorMeasurementData_ctor data_count_]. lia. }
    cbn [SensorMeasurementData_ctor data_count_] in Hcount.
    exists (s1, w1), (logged cos sin fmt_double s1 d, affected cos sin fmt_double s1 w1 d).
    split; [exact Hrun|]. split; [|reflexivity].
    apply callback_defined; [exact Hd|]. apply count_in_int. unfold INT_MIN. lia.
Qed.

(** C5: with [sample_target >= 1], over the first [sample_target]
    deliveries the callback calls [ros::shutdown()] exactly when the count
    it has just incremented equals the target: not at all while fewer than
    [sample_target] samples were delivered, and once in total when
    [sample_target] were. *)
Theorem shutdown_exactly_at_target
    (n : Params) (pkg date : string) (junk1 junk2 : float) (w : World)
    (ds : list Delivery) :
  1 <= data_point_count n <= INT_MAX ->
  Forall two_positions ds ->
  Z.of_nat (List.length ds) <= data_point_count n ->
  (exists st,
      run (SensorMeasurementData_ctor n pkg date junk1 junk2, w) ds = Ok st
      /\ shutdown_calls (snd st)
         = (shutdown_calls w
            + (if (Z.of_nat (List.length ds) =? data_point_count n)%Z then 1 else 0))%nat)
  /\ (forall pre d post,
        ds = (pre ++ d :: post)%list ->
        exists st st',
          run (SensorMeasurementData_ctor n pkg date junk1 junk2, w) pre = Ok st
          /\ callback st d = Ok st'
          /\ data_num_max_ (fst st') = data_point_count n
          /\ shutdown_calls (snd st')
             = (shutdown_calls (snd st)
                + (if (data_count_ (fst st') =? data_num_max_ (fst st'))%Z then 1 else 0))%nat).
Proof.
  intros Hn Hds Hlen. split.
  - destruct (deliver_defined cos sin fmt_double ds
                (SensorMeasurementData_ctor n pkg date junk1 junk2) w Hds)
      as (s1 & w1 & Hrun & _ & _ & _ & Hshut).
    { cbn. unfold INT_MIN. lia. }
    { cbn [SensorMeasurementData_ctor data_count_]. lia. }
    exists (s1, w1). split; [exact Hrun|]. cbn [snd]. rewrite Hshut.
    cbn [SensorMeasurementData_ctor data_count_ data_num_max_]. unfold meets.
    destruct (Z.ltb_spec 0 (data_point_count n)); [|lia].
    destruct (Z.leb_spec (data_point_count n) (0 + Z.of_nat (List.length ds)));
      destruct (Z.eqb_spec (Z.of_nat (List.length ds)) (data_point_count n));
      cbn; lia.
  - intros pre d post ->.
    apply Forall_app in Hds. destruct Hds as [Hpre Hrest].
    inversion Hrest as [|? ? Hd _]; subst.
    rewrite length_app in Hlen. cbn [List.length] in Hlen.
    destruct (deliver_defined cos sin fmt_double pre
                (SensorMeasurementData_ctor n pkg date junk1 junk2) w Hpre)
      as (s1 & w1 & Hrun & Hcfg & Hcount & _).
    { cbn. unfold INT_MIN. lia. }
    { cbn [SensorMeasurementData_ctor data_count_]. lia. }
    cbn [SensorMeasurementData_ctor data_count_] in Hcount.
    assert (Hmax : data_num_max_ s1 = data_point_count n).
    { destruct Hcfg as (_ & _ & _ & _ & _ & <-). reflexivity. }
    exists (s1, w1), (logged cos sin fmt_double s1 d, affected cos sin fmt_double s1 w1 d).
    split; [exact Hrun|]. split.
    { apply callback_defined; [exact Hd|]. apply count_in_int. unfold INT_MIN. lia. }
    split; [exact Hmax|].
    cbn [fst snd logged affected shutdown_calls data_count_ data_num_max_].
    destruct (data_count_ s1 + 1 =? data_num_max_ s1); lia.
Qed.

(** C6: when the output file cannot be opened, the callback writes the
    error to the ROS console and goes on: the record is appended to the
    log, the count is incremented, the termination test is made on the new
    count, the file is left as it was, and the callback returns. *)
Theorem open_failure_is_not_fatal
    (self : SensorMeasurementData) (w : World) (d : Delivery) :
  two_positions d ->
  INT_MIN <= data_count_ self < INT_MAX ->
  can_open d = false ->
  exists self' w',
    callback (self, w) d = Ok (self', w')
    /\ rosout w' = (rosout w ++ [ROS_INFO "I heard: [%F]" (nth 0 (position (msg d)) 0%float);
                                 ROS_ERROR "error"])%list
    /\ output_data_yaml_ self'
       = (output_data_yaml_ self ++ record_text fmt_double (log_record cos sin self d))%string
    /\ data_count_ self' = data_count_ self + 1
    /\ shutdown_calls w'
       = (shutdown_calls w
          + (if (data_count_ self' =? data_num_max_ self)%Z then 1 else 0))%nat
    /\ disk w' = disk w.
Proof.
  intros Hd Hc Hopen.
  exists (logged cos sin fmt_double self d), (affected cos sin fmt_double self w d).
  split; [apply callback_defined; [exact Hd | now apply count_in_int]|].
  cbn [logged affected rosout output_data_yaml_ data_count_ shutdown_calls disk].
  rewrite Hopen. repeat split.
  destruct (data_count_ self + 1 =? data_num_max_ self); lia.
Qed.

(** C8, as amended: the callback makes no check of the number of
    positions.  It reads past the end of [msg->position] (undefined
    behaviour, not a rejection) exactly when the message has fewer than
    two positions; the publisher's messages always have two. *)
Theorem short_message_read_out_of_bounds
    (self : SensorMeasurementData) (w : World) (d : Delivery)
    (joint_state : JointState) (now r1 r2 : Z) :
  (callback (self, w) d = Undefined OutOfBounds
   <-> (List.length (position (msg d)) < 2)%nat)
  /\ exists m line,
       Publisher.loop_body joint_state now r1 r2 = Ok (m, line)
       /\ List.length (position m) = 2%nat.
Proof.
  split.
  - unfold jointStatesCallback, at_index, int_add.
    destruct (position (msg d)) as [|p0 [|p1 rest]]; cbn [nth_error bind List.length].
    + split; [lia | reflexivity].
    + split; [lia | reflexivity].
    + cbn [data_count_ set_output_data_yaml set_positions].
      destruct (in_int (data_count_ self + 1)); cbn [bind];
        (split; [discriminate | lia]).
  - eexists _, _. split; reflexivity.
Qed.

(** C9: the text [saveJointAnglesEepos] returns is determined by the two
    joint positions and the end-effector position alone: two loggers that
    agree on the joint positions serialize the same position to the same
    string, whatever their counts, logs and paths are. *)
Theorem serialization_is_deterministic
    (self1 self2 : SensorMeasurementData) (ee : Vector2d) :
  position_joint1_ self1 = position_joint1_ self2 ->
  position_joint2_ self1 = position_joint2_ self2 ->
  saveJointAnglesEepos fmt_double self1 ee = saveJointAnglesEepos fmt_double self2 ee.
Proof.
  intros H1 H2. rewrite !saveJointAnglesEepos_text. now rewrite H1, H2.
Qed.

(** C10: the termination test is an equality on a count that starts at 0
    and grows by 1 with each delivery, so with a target that is zero or
    negative [ros::shutdown()] is never called, and every delivered sample
    is processed and counted (as long as the count fits in an [int]). *)
Theorem no_shutdown_without_positive_target
    (n : Params) (pkg date : string) (junk1 junk2 : float) (w : World)
    (ds : list Delivery) :
  data_point_count n <= 0 ->
  Forall two_positions ds ->
  Z.of_nat (List.length ds) <= INT_MAX ->
  exists st,
    run (SensorMeasurementData_ctor n pkg date junk1 junk2, w) ds = Ok st
    /\ shutdown_calls (snd st) = shutdown_calls w
    /\ data_count_ (fst st) = Z.of_nat (List.length ds)
    /\ output_data_yaml_ (fst st)
       = join (map (record_text fmt_double)
                 (map (log_record cos sin
                         (SensorMeasurementData_ctor n pkg date junk1 junk2)) ds)).
Proof.
  intros Hn Hds Hlen.
  destruct (deliver_defined cos sin fmt_double ds
              (SensorMeasurementData_ctor n pkg date junk1 junk2) w Hds)
    as (s1 & w1 & Hrun & _ & Hcount & Hlog & Hshut).
  { cbn. unfold INT_MIN. lia. }
  { cbn [SensorMeasurementData_ctor data_count_]. lia. }
  exists (s1, w1). split; [exact Hrun|]. cbn [fst snd].
  split.
  { rewrite Hshut. cbn [SensorMeasurementData_ctor data_count_ data_num_max_].
    unfold meets. destruct (Z.ltb_spec 0 (data_point_count n)); [lia|]. cbn. lia. }
  split; [exact Hcount|].
  rewrite Hlog. reflexivity.
Qed.

(** The arm at rest, with two unit links, no offsets and both joints at 0:
    whenever [cos 0 = 1] and [sin 0 = 0], [eePos] returns [(2.0, 0.0)]. *)
Lemma eePos_at_rest (self : SensorMeasurementData) :
  link_1_ self = 1%float -> link_2_ self = 1%float ->
  theta1_offset_ self = 0%float -> theta2_offset_ self = 0%float ->
  cos 0%float = 1%float -> sin 0%float = 0%float ->
  eePos cos sin self 0%float 0%float = (2%float, 0%float).
Proof.
  intros L1 L2 T1 T2 Hcos Hsin. unfold eePos. rewrite L1, L2, T1, T2.
  change (PrimFloat.div (PrimFloat.mul
            (PrimFloat.sub 0 (PrimFloat.div (PrimFloat.mul 0 M_PI) 180)) M_PI) 180)
    with 0%float.
  change (PrimFloat.div (PrimFloat.mul
            (PrimFloat.add (PrimFloat.sub 0 (PrimFloat.div (PrimFloat.mul 0 M_PI) 180))
                           (PrimFloat.sub 0 (PrimFloat.div (PrimFloat.mul 0 M_PI) 180)))
            M_PI) 180)
    with 0%float.
  rewrite Hcos, Hsin. reflexivity.
Qed.

Hypothesis fmt_numeric : forall x, YAML.numeric_scalar (fmt_double x) = true.

Lemma record_read_two_pairs (r : LogRecord) : YAML.two_pairs (record_read fmt_double r).
Proof.
  unfold YAML.two_pairs, record_read. split; [reflexivity|].
  repeat constructor; cbn [snd]; auto.
Qed.

(** C4: after every write that succeeds, the output file holds the whole
    log: it reads back as one sequence with exactly [data_count_]
    mappings, one per sample delivered so far and in their order, each with
    exactly the keys [joint angles] and [end effector position], each
    mapped to a flow sequence of two numbers (the received angles and the
    computed position). *)
Theorem file_holds_all_records
    (n : Params) (pkg date : string) (junk1 junk2 : float) (w : World)
    (ds : list Delivery) (d : Delivery) :
  Forall two_positions (ds ++ [d]) ->
  Z.of_nat (List.length (ds ++ [d])) <= INT_MAX ->
  can_open d = true ->
  exists st txt recs,
    run (SensorMeasurementData_ctor n pkg date junk1 junk2, w) (ds ++ [d]) = Ok st
    /\ disk (snd st) = Some txt
    /\ YAML.load txt = Some recs
    /\ recs = map (fun x => record_read fmt_double
                              (log_record cos sin
                                 (SensorMeasurementData_ctor n pkg date junk1 junk2) x))
                  (ds ++ [d])
    /\ Z.of_nat (List.length recs) = data_count_ (fst st)
    /\ Forall YAML.two_pairs recs.
Proof.
  intros Hall Hlen Hopen.
  destruct (deliver_defined cos sin fmt_double (ds ++ [d])
              (SensorMeasurementData_ctor n pkg date junk1 junk2) w Hall)
    as (s1 & w1 & Hrun & _ & Hcount & Hlog & _).
  { cbn. unfold INT_MIN. lia. }
  { cbn [SensorMeasurementData_ctor data_count_]. lia. }
  pose proof (last_write ds d (SensorMeasurementData_ctor n pkg date junk1 junk2) w Hall)
    as Hdisk.
  specialize (Hdisk ltac:(cbn; unfold INT_MIN; lia)
                    ltac:(cbn [SensorMeasurementData_ctor data_count_]; lia)
                    Hopen s1 w1 Hrun).
  cbn [SensorMeasurementData_ctor output_data_yaml_ data_count_] in Hlog, Hcount.
  cbn [append] in Hlog.
  eexists (s1, w1), _, _. cbn [fst snd].
  split; [exact Hrun|]. split; [exact Hdisk|].
  split; [rewrite Hlog; apply load_log; exact fmt_numeric|].
  split; [now rewrite map_map|].
  split; [rewrite !length_map, Hcount; lia|].
  apply Forall_forall. intros r Hr. apply in_map_iff in Hr.
  destruct Hr as (x & <- & _). apply record_read_two_pairs.
Qed.

End Claims.

(** ** The claims on the sample instance *)

Section OnSample.

Import Sample.

Abbreviation pkg := "/opt/ros/my_2d_robot"%string.
Abbreviation date := "02_11_2026_10:00:00"%string.

Lemma three_two_positions : Forall two_positions three.
Proof. repeat constructor; apply sample_two_positions. Qed.

Lemma eePos_as_specified_witness :
  (forall j1 j2,
      eePos cos sin logger0 j1 j2
      = spec_end_effector cos sin 1%float 1%float 0%float 0%float j1 j2)
  /\ exists self' w',
       jointStatesCallback cos sin fmt_double (logger0, world0) (sample 150 25 true)
       = Ok (self', w')
       /\ output_data_yaml_ self'
          = (output_data_yaml_ logger0
             ++ record_text fmt_double
                  (angles (msg (sample 150 25 true)),
                   spec_end_effector cos sin 1%float 1%float 0%float 0%float
                     (nth 0 (position (msg (sample 150 25 true))) 0%float)
                     (nth 1 (position (msg (sample 150 25 true))) 0%float)))%string.
Proof.
  apply (eePos_as_specified cos sin fmt_double logger0 world0 (sample 150 25 true)).
  - apply sample_two_positions.
  - cbn. unfold INT_MIN, INT_MAX. lia.
Defined.

(** C2, as stated, fails: with a target of 3, a fourth sample handed to
    the callback after the third is processed: the count becomes 4 and the
    file is rewritten with four records. *)
Lemma fourth_sample_is_processed :
  exists st3 st4,
    run three = Ok st3
    /\ data_num_max_ (fst st3) = 3
    /\ data_count_ (fst st3) = 3
    /\ shutdown_calls (snd st3) = 1%nat
    /\ option_map (@List.length _) (file_records (snd st3)) = Some 3%nat
    /\ jointStatesCallback cos sin fmt_double st3 (sample 10 20 true) = Ok st4
    /\ data_count_ (fst st4) = 4
    /\ option_map (@List.length _) (file_records (snd st4)) = Some 4%nat
    /\ output_data_yaml_ (fst st4) <> output_data_yaml_ (fst st3).
Proof.
  eexists _, _.
  split; [vm_compute; reflexivity|].
  split; [reflexivity|].
  split; [reflexivity|].
  split; [reflexivity|].
  split; [vm_compute; reflexivity|].
  split; [vm_compute; reflexivity|].
  split; [reflexivity|].
  split; [vm_compute; reflexivity|].
  intros H. apply (f_equal String.length) in H. vm_compute in H. discriminate H.
Qed.

Lemma sample_after_target_is_processed_witness :
  exists st st',
    run three = Ok st
    /\ data_count_ (fst st) = 3
    /\ shutdown_calls (snd st) = 1%nat
    /\ jointStatesCallback cos sin fmt_double st (sample 10 20 true) = Ok st'
    /\ data_count_ (fst st') = 3 + 1
    /\ output_data_yaml_ (fst st')
       = (output_data_yaml_ (fst st)
          ++ record_text fmt_double (log_record cos sin (fst st) (sample 10 20 true)))%string
    /\ (can_open (sample 10 20 true) = true ->
        disk (snd st') = Some (output_data_yaml_ (fst st') ++ YAML.nl)%string)
    /\ shutdown_calls (snd st') = shutdown_calls (snd st).
Proof.
  apply (sample_after_target_is_processed cos sin fmt_double params pkg date
           0%float 0%float world0 three (sample 10 20 true)).
  - cbn. unfold INT_MAX. lia.
  - reflexivity.
  - exact three_two_positions.
  - apply sample_two_positions.
Defined.

Lemma count_equals_samples_delivered_witness :
  data_count_ logger0 = 0
  /\ (exists st, run three = Ok st /\ data_count_ (fst st) = Z.of_nat (List.length three))
  /\ (forall pre d post,
        three = (pre ++ d :: post)%list ->
        exists st st',
          run pre = Ok st
          /\ jointStatesCallback cos sin fmt_double st d = Ok st'
          /\ data_count_ (fst st') = data_count_ (fst st) + 1).
Proof.
  apply (count_equals_samples_delivered cos sin fmt_double params pkg date
           0%float 0%float world0 three).
  - exact three_two_positions.
  - cbn. lia.
  - cbn. unfold INT_MAX. lia.
Defined.

Lemma file_holds_all_records_witness :
  exists st txt recs,
    run ([sample 0 0 true; sample 150 25 false] ++ [sample 314 7 true]) = Ok st
    /\ disk (snd st) = Some txt
    /\ YAML.load txt = Some recs
    /\ recs = map (fun x => record_read fmt_double (log_record cos sin logger0 x))
                  ([sample 0 0 true; sample 150 25 false] ++ [sample 314 7 true])
    /\ Z.of_nat (List.length recs) = data_count_ (fst st)
    /\ Forall YAML.two_pairs recs.
Proof.
  apply (file_holds_all_records cos sin fmt_double sample_fmt_numeric params pkg date
           0%float 0%float world0 [sample 0 0 true; sample 150 25 false]
           (sample 314 7 true)).
  - exact three_two_positions.
  - cbn. unfold INT_MAX. lia.
  - reflexivity.
Defined.

Lemma shutdown_exactly_at_target_witness :
  (exists st,
      run three = Ok st
      /\ shutdown_calls (snd st)
         = (shutdown_calls world0
            + (if (Z.of_nat (List.length three) =? data_point_count params)%Z
               then 1 else 0))%nat)
  /\ (forall pre d post,
        three = (pre ++ d :: post)%list ->
        exists st st',
          run pre = Ok st
          /\ jointStatesCallback cos sin fmt_double st d = Ok st'
          /\ data_num_max_ (fst st') = data_point_count params
          /\ shutdown_calls (snd st')
             = (shutdown_calls (snd st)
                + (if (data_count_ (fst st') =? data_num_max_ (fst st'))%Z
                   then 1 else 0))%nat).
Proof.
  apply (shutdown_exactly_at_target cos sin fmt_double params pkg date
           0%float 0%float world0 three).
  - cbn. unfold INT_MAX. lia.
  - exact three_two_positions.
  - cbn. lia.
Defined.

Lemma open_failure_is_not_fatal_witness :
  exists self' w',
    jointStatesCallback cos sin fmt_double (logger0, world0) (sample 150 25 false)
    = Ok (self', w')
    /\ rosout w'
       = (rosout world0
          ++ [ROS_INFO "I heard: [%F]" (nth 0 (position (msg (sample 150 25 false))) 0%float);
              ROS_ERROR "error"])%list
    /\ output_data_yaml_ self'
       = (output_data_yaml_ logger0
          ++ record_text fmt_double (log_record cos sin logger0 (sample 150 25 false)))%string
    /\ data_count_ self' = data_count_ logger0 + 1
    /\ shutdown_calls w'
       = (shutdown_calls world0
          + (if (data_count_ self' =? data_num_max_ logger0)%Z then 1 else 0))%nat
    /\ disk w' = disk world0.
Proof.
  apply (open_failure_is_not_fatal cos sin fmt_double logger0 world0 (sample 150 25 false)).
  - apply sample_two_positions.
  - cbn. unfold INT_MIN, INT_MAX. lia.
  - reflexivity.
Defined.

(** C8, as stated, fails: a message with one position, or with none, is
    not rejected; the callback reads past the end of its positions. *)
Lemma short_message_is_not_rejected :
  jointStatesCallback cos sin fmt_double (logger0, world0) short_message
  = Undefined OutOfBounds
  /\ jointStatesCallback cos sin fmt_double (logger0, world0)
       (mkDelivery (mkJointState 0 [] []) true)
     = Undefined OutOfBounds.
Proof. split; reflexivity. Qed.

Lemma serialization_is_deterministic_witness :
  saveJointAnglesEepos fmt_double
    (mkLogger 1.5%float 0.25%float 0%float 0%float 1%float 1%float "a.yaml" "" 0 3)
    (2%float, 0%float)
  = saveJointAnglesEepos fmt_double
      (mkLogger 1.5%float 0.25%float 10%float 20%float 2%float 3%float "b.yaml" "- x" 7 9)
      (2%float, 0%float).
Proof.
  apply (serialization_is_deterministic fmt_double); reflexivity.
Defined.

Lemma eePos_at_rest_witness :
  eePos cos sin logger0 0%float 0%float = (2%float, 0%float).
Proof.
  apply (eePos_at_rest cos sin logger0); reflexivity.
Defined.

(** The text of a record on the sample instance. *)
Example record_text_example :
  saveJointAnglesEepos fmt_double
    (mkLogger 1.5%float 0.25%float 0%float 0%float 1%float 1%float "a.yaml" "" 0 3)
    (2%float, 0%float)
  = "- joint angles: [15e-1, 25e-2]
  end effector position: [2, 0]
"%string.
Proof. vm_compute. reflexivity. Qed.

Lemma no_shutdown_without_positive_target_witness :
  exists st,
    run_from params_no_target three = Ok st
    /\ shutdown_calls (snd st) = shutdown_calls world0
    /\ data_count_ (fst st) = Z.of_nat (List.length three)
    /\ output_data_yaml_ (fst st)
       = join (map (record_text fmt_double)
                 (map (log_record cos sin
                         (SensorMeasurementData_ctor params_no_target pkg date 0%float 0%float))
                      three)).
Proof.
  apply (no_shutdown_without_positive_target cos sin fmt_double params_no_target pkg date
           0%float 0%float world0 three).
  - cbn. lia.
  - exact three_two_positions.
  - cbn. unfold INT_MAX. lia.
Defined.

End OnSample.

(** * Further properties of the logger: edges, runs and effects *)

Section Runs.

Variables cos sin : float -> float.
Variable fmt_double : float -> string.

Abbreviation callback := (jointStatesCallback cos sin fmt_double).
Abbreviation run := (deliver cos sin fmt_double).
Abbreviation after := (settled cos sin fmt_double).

Lemma in_int_iff (z : Z) : in_int z = true <-> INT_MIN <= z <= INT_MAX.
Proof.
  unfold in_int. rewrite andb_true_iff, !Z.leb_le. tauto.
Qed.

Lemma callback_short (self : SensorMeasurementData) (w : World) (d : Delivery) :
  (List.length (position (msg d)) < 2)%nat ->
  callback (self, w) d = Undefined OutOfBounds.
Proof.
  unfold jointStatesCallback, at_index.
  destruct (position (msg d)) as [|p0 [|p1 rest]]; cbn [nth_error bind List.length];
    intros H; try reflexivity; lia.
Qed.

Lemma callback_overflow (self : SensorMeasurementData) (w : World) (d : Delivery) :
  two_positions d ->
  in_int (data_count_ self + 1) = false ->
  callback (self, w) d = Undefined SignedOverflow.
Proof.
  intros Hd Hc. destruct (two_positions_nth d Hd) as [H0 H1].
  unfold jointStatesCallback, at_index, int_add.
  rewrite H0, H1. cbn [bind data_count_ set_output_data_yaml set_positions].
  rewrite Hc. reflexivity.
Qed.

Lemma callback_ok_inv (self : SensorMeasurementData) (w : World) (d : Delivery)
    (st' : SensorMeasurementData * World) :
  callback (self, w) d = Ok st' ->
  two_positions d
  /\ in_int (data_count_ self + 1) = true
  /\ st' = (logged cos sin fmt_double self d, affected cos sin fmt_double self w d).
Proof.
  intros H.
  destruct (Nat.lt_ge_cases (List.length (position (msg d))) 2) as [Hs|Hd].
  { rewrite (callback_short self w d Hs) in H. discriminate H. }
  destruct (in_int (data_count_ self + 1)) eqn:E.
  - rewrite (callback_defined cos sin fmt_double self w d Hd E) in H.
    injection H as <-. auto.
  - rewrite (callback_overflow self w d Hd E) in H. discriminate H.
Qed.

Lemma deliver_settled (ds : list Delivery) :
  forall (self : SensorMeasurementData) (w : World),
    Forall two_positions ds ->
    INT_MIN <= data_count_ self ->
    data_count_ self + Z.of_nat (List.length ds) <= INT_MAX ->
    run (self, w) ds = Ok (after self w ds).
Proof.
  induction ds as [|d ds IH]; intros self w Hds Hlo Hhi; [reflexivity|].
  inversion Hds as [|? ? Hd Hds']; subst.
  cbn [List.length] in Hhi. rewrite Nat2Z.inj_succ in Hhi.
  cbn [deliver settled].
  rewrite (callback_defined cos sin fmt_double self w d Hd)
    by (apply in_int_iff; lia).
  cbn [bind]. apply IH; [exact Hds' | |]; cbn [logged data_count_]; lia.
Qed.

Lemma deliver_ok_inv (ds : list Delivery) :
  forall (self : SensorMeasurementData) (w : World) (st' : SensorMeasurementData * World),
    run (self, w) ds = Ok st' ->
    data_count_ self <= INT_MAX ->
    Forall two_positions ds
    /\ data_count_ self + Z.of_nat (List.length ds) <= INT_MAX.
Proof.
  induction ds as [|d ds IH]; intros self w st' H Hhi.
  - split; [constructor | cbn; lia].
  - cbn [deliver] in H.
    destruct (callback (self, w) d) as [st1|u] eqn:E; cbn [bind] in H; [|discriminate H].
    destruct (callback_ok_inv self w d st1 E) as (Hd & Hc & ->).
    apply in_int_iff in Hc.
    destruct (IH _ _ _ H) as [Hds Hlen]; [cbn [logged data_count_]; lia|].
    cbn [logged data_count_] in Hlen.
    split; [constructor; assumption|].
    cbn [List.length]. rewrite Nat2Z.inj_succ. lia.
Qed.

Lemma after_app (a b : list Delivery) :
  forall (self : SensorMeasurementData) (w : World),
    after self w (a ++ b)
    = after (fst (after self w a)) (snd (after self w a)) b.
Proof.
  induction a as [|d a IH]; intros self w; cbn [app settled fst snd]; [reflexivity|].
  apply IH.
Qed.

Lemma after_config (ds : list Delivery) :
  forall (self : SensorMeasurementData) (w : World),
    same_config self (fst (after self w ds)).
Proof.
  induction ds as [|d ds IH]; intros self w; cbn [settled fst].
  - apply same_config_refl.
  - eapply same_config_trans; [apply (same_config_logged cos sin fmt_double self d) | apply IH].
Qed.

Lemma after_count (ds : list Delivery) :
  forall (self : SensorMeasurementData) (w : World),
    data_count_ (fst (after self w ds))
    = data_count_ self + Z.of_nat (List.length ds).
Proof.
  induction ds as [|d ds IH]; intros self w; cbn [settled fst List.length].
  - lia.
  - rewrite IH. cbn [logged data_count_]. lia.
Qed.

Lemma after_log (ds : list Delivery) :
  forall (self : SensorMeasurementData) (w : World),
    output_data_yaml_ (fst (after self w ds))
    = (output_data_yaml_ self
       ++ join (map (record_text fmt_double) (map (log_record cos sin self) ds)))%string.
Proof.
  induction ds as [|d ds IH]; intros self w; cbn [settled fst map join fold_right].
  - now rewrite append_nil_r.
  - rewrite IH. cbn [logged output_data_yaml_]. rewrite append_assoc. reflexivity.
Qed.

Lemma after_rosout (ds : list Delivery) :
  forall (self : SensorMeasurementData) (w : World),
    rosout (snd (after self w ds)) = (rosout w ++ flat_map console_lines ds)%list.
Proof.
  induction ds as [|d ds IH]; intros self w; cbn [settled snd flat_map].
  - now rewrite app_nil_r.
  - rewrite IH. cbn [affected rosout]. unfold console_lines, angles. cbn [fst].
    rewrite <- app_assoc. reflexivity.
Qed.

Lemma after_shutdown (ds : list Delivery) :
  forall (self : SensorMeasurementData) (w : World),
    shutdown_calls (snd (after self w ds))
    = (shutdown_calls w
       + meets (data_count_ self) (data_num_max_ self) (List.length ds))%nat.
Proof.
  induction ds as [|d ds IH]; intros self w; cbn [settled snd List.length].
  - unfold meets.
    destruct (Z.ltb_spec (data_count_ self) (data_num_max_ self));
      destruct (Z.leb_spec (data_num_max_ self) (data_count_ self + Z.of_nat 0));
      cbn; lia.
  - rewrite IH. cbn [logged affected shutdown_calls data_count_ data_num_max_].
    rewrite <- meets_step.
    destruct (data_count_ self + 1 =? data_num_max_ self); lia.
Qed.

Lemma after_disk_closed (ds : list Delivery) :
  forall (self : SensorMeasurementData) (w : World),
    Forall (fun d => can_open d = false) ds ->
    disk (snd (after self w ds)) = disk w.
Proof.
  induction ds as [|d ds IH]; intros self w Hds; cbn [settled snd]; [reflexivity|].
  inversion Hds as [|? ? Hd Hds']; subst.
  rewrite (IH _ _ Hds'). cbn [affected disk]. now rewrite Hd.
Qed.

Lemma after_disk_last_open (before later : list Delivery) (d : Delivery)
    (self : SensorMeasurementData) (w : World) :
  can_open d = true ->
  Forall (fun x => can_open x = false) later ->
  disk (snd (after self w (before ++ d :: later)))
  = Some (output_data_yaml_ self
          ++ join (map (record_text fmt_double)
                     (map (log_record cos sin self) (before ++ [d])))
          ++ YAML.nl)%string.
Proof.
  intros Hopen Hlater.
  replace (before ++ d :: later)%list with ((before ++ [d]) ++ later)%list
    by (rewrite <- app_assoc; reflexivity).
  rewrite after_app, (after_disk_closed later _ _ Hlater).
  rewrite after_app. cbn [settled snd fst affected disk]. rewrite Hopen.
  f_equal. cbn [logged output_data_yaml_].
  rewrite after_log, map_app, map_app, join_app. cbn [map join fold_right].
  repeat (rewrite append_assoc; cbn [append]).
  rewrite <- (log_record_config cos sin self (fst (after self w before)) d
                (after_config before self w)).
  reflexivity.
Qed.

(** X1: when a call of the callback is free of undefined behaviour.  It is
    exactly when the message has at least two positions and the count plus
    one is still an [int]; the undefined behaviour is a signed overflow of
    the increment exactly when the message has two positions and the count
    plus one is not an [int] (the count at [INT_MAX]).  What a compiled
    program does in the undefined cases is not stated. *)
Theorem callback_outcomes (self : SensorMeasurementData) (w : World) (d : Delivery) :
  ((exists st', callback (self, w) d = Ok st')
   <-> (2 <= List.length (position (msg d)))%nat
       /\ INT_MIN <= data_count_ self + 1 <= INT_MAX)
  /\ (callback (self, w) d = Undefined SignedOverflow
      <-> (2 <= List.length (position (msg d)))%nat
          /\ ~ (INT_MIN <= data_count_ self + 1 <= INT_MAX)).
Proof.
  split; split.
  - intros [st' H]. destruct (callback_ok_inv self w d st' H) as (Hd & Hc & _).
    split; [exact Hd | now apply in_int_iff].
  - intros [Hd Hc]. eexists.
    apply callback_defined; [exact Hd | now apply in_int_iff].
  - intros H.
    destruct (Nat.lt_ge_cases (List.length (position (msg d))) 2) as [Hs|Hd].
    { rewrite (callback_short self w d Hs) in H. discriminate H. }
    split; [exact Hd|]. intros Hc. apply in_int_iff in Hc.
    rewrite (callback_defined cos sin fmt_double self w d Hd Hc) in H. discriminate H.
  - intros [Hd Hc]. apply callback_overflow; [exact Hd|].
    destruct (in_int (data_count_ self + 1)) eqn:E; [|reflexivity].
    exfalso. apply Hc. now apply in_int_iff.
Qed.

(** X2: a run of deliveries is free of undefined behaviour exactly when
    every message has at least two positions and the count, raised by the
    number of deliveries, still fits an [int]: one short message anywhere
    in the run, or one delivery too many, spoils the whole run. *)
Theorem run_defined_iff (self : SensorMeasurementData) (w : World) (ds : list Delivery) :
  INT_MIN <= data_count_ self <= INT_MAX ->
  ((exists st', run (self, w) ds = Ok st')
   <-> Forall (fun d => (2 <= List.length (position (msg d)))%nat) ds
       /\ data_count_ self + Z.of_nat (List.length ds) <= INT_MAX).
Proof.
  intros [Hlo Hhi]. split.
  - intros [st' H]. exact (deliver_ok_inv ds self w st' H Hhi).
  - intros [Hds Hlen]. eexists. now apply deliver_settled.
Qed.

(** X3: whatever the target is and whether or not the file opens, after a
    run the log in memory is the earlier log followed by one record per
    delivery, in the order of delivery, each made of that delivery's angles
    and the position computed from them alone; the count has grown by the
    number of deliveries, and the two position fields hold the angles of
    the last message. *)
Theorem log_grows_by_one_record_per_delivery
    (self : SensorMeasurementData) (w : World) (ds : list Delivery) (d : Delivery) :
  Forall two_positions (ds ++ [d]) ->
  INT_MIN <= data_count_ self ->
  data_count_ self + Z.of_nat (List.length (ds ++ [d])) <= INT_MAX ->
  exists st',
    run (self, w) (ds ++ [d]) = Ok st'
    /\ output_data_yaml_ (fst st')
       = (output_data_yaml_ self
          ++ join (map (fun x => saveJointAnglesEepos fmt_double
                                   (set_positions self (nth 0 (position (msg x)) 0%float)
                                                       (nth 1 (position (msg x)) 0%float))
                                   (eePos cos sin self
                                      (nth 0 (position (msg x)) 0%float)
                                      (nth 1 (position (msg x)) 0%float)))
                       (ds ++ [d])))%string
    /\ data_count_ (fst st') = data_count_ self + Z.of_nat (List.length (ds ++ [d]))
    /\ position_joint1_ (fst st') = nth 0 (position (msg d)) 0%float
    /\ position_joint2_ (fst st') = nth 1 (position (msg d)) 0%float.
Proof.
  intros Hall Hlo Hhi. exists (after self w (ds ++ [d])).
  split; [now apply deliver_settled|].
  split.
  { rewrite after_log, map_map. f_equal. f_equal. apply map_ext. intros x.
    rewrite saveJointAnglesEepos_text. reflexivity. }
  split; [apply after_count|].
  rewrite after_app. cbn [settled fst logged position_joint1_ position_joint2_ angles snd].
  split; reflexivity.
Qed.

(** X4: a run never writes the fields the constructor took from the
    parameters: after any run the offsets, the link lengths and the target
    are those of the launch file, and the output path is still
    [<package>/Output_yaml/<date>_output.yaml]. *)
Theorem configuration_is_never_changed
    (n : Params) (pkg date : string) (junk1 junk2 : float) (w : World)
    (ds : list Delivery) :
  Forall two_positions ds ->
  Z.of_nat (List.length ds) <= INT_MAX ->
  exists st',
    run (SensorMeasurementData_ctor n pkg date junk1 junk2, w) ds = Ok st'
    /\ theta1_offset_ (fst st') = Theta1_offset n
    /\ theta2_offset_ (fst st') = Theta2_offset n
    /\ link_1_ (fst st') = link_1 n
    /\ link_2_ (fst st') = link_2 n
    /\ data_num_max_ (fst st') = data_point_count n
    /\ my_output_ (fst st') = (pkg ++ "/Output_yaml/" ++ date ++ "_output.yaml")%string.
Proof.
  intros Hds Hlen.
  exists (after (SensorMeasurementData_ctor n pkg date junk1 junk2) w ds).
  split.
  { apply deliver_settled; [exact Hds | cbn; unfold INT_MIN; lia |].
    cbn [SensorMeasurementData_ctor data_count_]. lia. }
  destruct (after_config ds (SensorMeasurementData_ctor n pkg date junk1 junk2) w)
    as (H1 & H2 & H3 & H4 & H5 & H6).
  rewrite <- H1, <- H2, <- H3, <- H4, <- H5, <- H6.
  cbn [SensorMeasurementData_ctor theta1_offset_ theta2_offset_ link_1_ link_2_
       data_num_max_ my_output_].
  repeat split. repeat (rewrite append_assoc; cbn [append]). reflexivity.
Qed.

(** X5: over a run of any length [ros::shutdown()] is called at most once:
    once when the target is at least 1 and at least that many samples were
    delivered, and not at all otherwise; deliveries beyond the target never
    call it again. *)
Theorem shutdown_at_most_once
    (n : Params) (pkg date : string) (junk1 junk2 : float) (w : World)
    (ds : list Delivery) :
  Forall two_positions ds ->
  Z.of_nat (List.length ds) <= INT_MAX ->
  exists st',
    run (SensorMeasurementData_ctor n pkg date junk1 junk2, w) ds = Ok st'
    /\ shutdown_calls (snd st')
       = (shutdown_calls w
          + (if (1 <=? data_point_count n)%Z
                && (data_point_count n <=? Z.of_nat (List.length ds))%Z
             then 1 else 0))%nat.
Proof.
  intros Hds Hlen.
  exists (after (SensorMeasurementData_ctor n pkg date junk1 junk2) w ds).
  split.
  { apply deliver_settled; [exact Hds | cbn; unfold INT_MIN; lia |].
    cbn [SensorMeasurementData_ctor data_count_]. lia. }
  rewrite after_shutdown. cbn [SensorMeasurementData_ctor data_count_ data_num_max_].
  unfold meets.
  destruct (Z.ltb_spec 0 (data_point_count n));
    destruct (Z.leb_spec 1 (data_point_count n));
    destruct (Z.leb_spec (data_point_count n) (0 + Z.of_nat (List.length ds)));
    destruct (Z.leb_spec (data_point_count n) (Z.of_nat (List.length ds)));
    cbn; lia.
Qed.

(** X6: the file always holds the log as it was at the last delivery whose
    open succeeded.  Deliveries whose open fails leave the file exactly as
    it was (also when none has succeeded yet), and a successful open
    replaces the whole content by the whole log, records of failed
    deliveries included. *)
Theorem file_is_the_last_successful_write
    (self : SensorMeasurementData) (w : World) (ds : list Delivery) :
  Forall two_positions ds ->
  INT_MIN <= data_count_ self ->
  data_count_ self + Z.of_nat (List.length ds) <= INT_MAX ->
  exists st',
    run (self, w) ds = Ok st'
    /\ (Forall (fun d => can_open d = false) ds -> disk (snd st') = disk w)
    /\ (forall before d later,
          ds = (before ++ d :: later)%list ->
          can_open d = true ->
          Forall (fun x => can_open x = false) later ->
          disk (snd st')
          = Some (output_data_yaml_ self
                  ++ join (map (record_text fmt_double)
                             (map (log_record cos sin self) (before ++ [d])))
                  ++ YAML.nl)%string).
Proof.
  intros Hds Hlo Hhi. exists (after self w ds).
  split; [now apply deliver_settled|].
  split; [apply after_disk_closed|].
  intros before d later -> Hopen Hlater.
  now apply after_disk_last_open.
Qed.

(** X7: the ROS console after a run: for each delivery, in order, one
    [ROS_INFO] line with the first position of the message, followed by one
    [ROS_ERROR] line exactly when the open failed; nothing else is
    written, not even when shutdown is requested. *)
Theorem console_after_a_run
    (self : SensorMeasurementData) (w : World) (ds : list Delivery) :
  Forall two_positions ds ->
  INT_MIN <= data_count_ self ->
  data_count_ self + Z.of_nat (List.length ds) <= INT_MAX ->
  exists st',
    run (self, w) ds = Ok st'
    /\ rosout (snd st') = (rosout w ++ flat_map console_lines ds)%list
    /\ List.length (filter (fun l => match l with ROS_ERROR _ => true | _ => false end)
                           (flat_map console_lines ds))
       = List.length (filter (fun d => negb (can_open d)) ds).
Proof.
  intros Hds Hlo Hhi. exists (after self w ds).
  split; [now apply deliver_settled|].
  split; [apply after_rosout|].
  clear. induction ds as [|d ds IH]; [reflexivity|].
  cbn [flat_map filter]. rewrite filter_app, length_app, IH.
  unfold console_lines. destruct (can_open d); reflexivity.
Qed.

Hypothesis fmt_numeric : forall x, YAML.numeric_scalar (fmt_double x) = true.

(** X10: between two deliveries the output file is always complete.  Once
    an open has succeeded, whatever the later opens do, the file reads back
    as a whole number of records: those of all deliveries up to the last
    one whose open succeeded, in order; the records of later deliveries
    (whose opens failed) are the only ones missing from it. *)
Theorem file_always_reads_back
    (n : Params) (pkg date : string) (junk1 junk2 : float) (w : World)
    (before later : list Delivery) (d : Delivery) :
  Forall two_positions (before ++ d :: later) ->
  Z.of_nat (List.length (before ++ d :: later)) <= INT_MAX ->
  can_open d = true ->
  Forall (fun x => can_open x = false) later ->
  exists st',
    run (SensorMeasurementData_ctor n pkg date junk1 junk2, w) (before ++ d :: later)
    = Ok st'
    /\ file_records (snd st')
       = Some (map (fun x => record_read fmt_double
                               (log_record cos sin
                                  (SensorMeasurementData_ctor n pkg date junk1 junk2) x))
                   (before ++ [d]))
    /\ data_count_ (fst st')
       = Z.of_nat (List.length (before ++ [d])) + Z.of_nat (List.length later).
Proof.
  intros Hall Hlen Hopen Hlater.
  exists (after (SensorMeasurementData_ctor n pkg date junk1 junk2) w (before ++ d :: later)).
  split.
  { apply deliver_settled; [exact Hall | cbn; unfold INT_MIN; lia |].
    cbn [SensorMeasurementData_ctor data_count_]. lia. }
  split.
  - unfold file_records. rewrite (after_disk_last_open before later d _ w Hopen Hlater).
    cbn [SensorMeasurementData_ctor output_data_yaml_ append].
    rewrite (load_log fmt_double fmt_numeric), map_map. reflexivity.
  - rewrite after_count. cbn [SensorMeasurementData_ctor data_count_].
    rewrite !length_app. cbn [List.length]. lia.
Qed.

End Runs.

(** * Further properties of the publisher *)

Section PublisherRuns.

Import Publisher.

Lemma loop_body_value (joint_state : JointState) (now r1 r2 : Z) :
  loop_body joint_state now r1 r2
  = Ok (mkJointState now ["joint1"; "joint2"]%string [joint_pos r1; joint_pos r2],
        ROS_INFO "%F" (joint_pos r1)).
Proof. reflexivity. Qed.

Lemma residues_decoded :
  forallb (fun k => match hundredth_of (joint_pos k) with
                    | Some h => h =? k
                    | None => false
                    end) residues = true.
Proof. vm_compute. reflexivity. Qed.

Lemma residues_single_precision :
  forallb (fun k => PrimFloat.Leibniz.eqb (float_of_double (joint_pos k)) (joint_pos k))
          residues = true.
Proof. vm_compute. reflexivity. Qed.

Lemma hundredth_of_joint_pos (r : Z) :
  0 <= r -> hundredth_of (joint_pos r) = Some (Z.rem r 315).
Proof.
  intros Hr. rewrite joint_pos_rem.
  pose proof (proj1 (forallb_forall _ _) residues_decoded _ (rem_in_residues r Hr)) as H.
  cbv beta in H.
  destruct (hundredth_of (joint_pos (Z.rem r 315))) as [h|]; [|discriminate H].
  apply Z.eqb_eq in H. now subst.
Qed.

(** X8: the publisher never leaves its loop and publishes at every turn,
    whether or not shutdown of the node has been requested (the loop tests
    the function [ros::ok], not its result): for any turns granted, one
    message per turn, in order, each with the time of its turn, the names
    [joint1] and [joint2] and the two positions of its own two draws,
    nothing of an earlier turn; one console line per turn with the first
    position; and no exit status. *)
Theorem publisher_never_stops (joint_state : JointState) (ticks : list Tick) :
  main_loop joint_state ticks
  = Ok (map message_of ticks,
        map (fun t => ROS_INFO "%F" (joint_pos (rand1 t))) ticks,
        None).
Proof.
  revert joint_state. induction ticks as [|t ticks IH]; intros joint_state.
  - reflexivity.
  - cbn [main_loop map]. unfold loop_condition.
    rewrite loop_body_value. cbn [bind fst snd]. rewrite IH. reflexivity.
Qed.

(** X9: a published position identifies its hundredth.  Times 100 and
    rounded to the nearest integer it gives back [rand() % 315]; so two
    draws publish the same position exactly when they agree modulo 315
    (single precision never merges two neighbouring hundredths); and the
    position is a single-precision value (converting it to [float] again
    changes nothing). *)
Theorem position_identifies_hundredth (r r' : Z) :
  0 <= r -> 0 <= r' ->
  hundredth_of (joint_pos r) = Some (Z.rem r 315)
  /\ (joint_pos r = joint_pos r' <-> Z.rem r 315 = Z.rem r' 315)
  /\ float_of_double (joint_pos r) = joint_pos r.
Proof.
  intros Hr Hr'. split; [now apply hundredth_of_joint_pos|]. split.
  - split.
    + intros E. apply (f_equal hundredth_of) in E.
      rewrite !hundredth_of_joint_pos in E by assumption. now injection E.
    + intros E. rewrite (joint_pos_rem r), (joint_pos_rem r'), E. reflexivity.
  - rewrite joint_pos_rem.
    apply FloatAxioms.Leibniz.eqb_spec.
    exact (proj1 (forallb_forall _ _) residues_single_precision _ (rem_in_residues r Hr)).
Qed.

Lemma position_identifies_hundredth_witness :
  hundredth_of (joint_pos 1000) = Some (Z.rem 1000 315)
  /\ (joint_pos 1000 = joint_pos 55 <-> Z.rem 1000 315 = Z.rem 55 315)
  /\ float_of_double (joint_pos 1000) = joint_pos 1000.
Proof.
  apply (position_identifies_hundredth 1000 55); lia.
Defined.

End PublisherRuns.

(** ** The further properties on the sample instance *)

Section RunsOnSample.

Import Sample.

Lemma run_defined_iff_witness :
  (exists st', deliver cos sin fmt_double (logger0, world0) three = Ok st')
  <-> Forall (fun d => (2 <= List.length (position (msg d)))%nat) three
      /\ data_count_ logger0 + Z.of_nat (List.length three) <= INT_MAX.
Proof.
  apply (run_defined_iff cos sin fmt_double logger0 world0 three).
  cbn. unfold INT_MIN, INT_MAX. lia.
Defined.

Lemma log_grows_by_one_record_per_delivery_witness :
  exists st',
    deliver cos sin fmt_double (logger0, world0)
      ([sample 0 0 true; sample 150 25 false] ++ [sample 314 7 true]) = Ok st'
    /\ output_data_yaml_ (fst st')
       = (output_data_yaml_ logger0
          ++ join (map (fun x => saveJointAnglesEepos fmt_double
                                   (set_positions logger0
                                      (nth 0 (position (msg x)) 0%float)
                                      (nth 1 (position (msg x)) 0%float))
                                   (eePos cos sin logger0
                                      (nth 0 (position (msg x)) 0%float)
                                      (nth 1 (position (msg x)) 0%float)))
                       ([sample 0 0 true; sample 150 25 false] ++ [sample 314 7 true])))%string
    /\ data_count_ (fst st')
       = data_count_ logger0
         + Z.of_nat (List.length ([sample 0 0 true; sample 150 25 false] ++ [sample 314 7 true]))
    /\ position_joint1_ (fst st') = nth 0 (position (msg (sample 314 7 true))) 0%float
    /\ position_joint2_ (fst st') = nth 1 (position (msg (sample 314 7 true))) 0%float.
Proof.
  apply (log_grows_by_one_record_per_delivery cos sin fmt_double logger0 world0
           [sample 0 0 true; sample 150 25 false] (sample 314 7 true)).
  - exact three_two_positions.
  - cbn. unfold INT_MIN. lia.
  - cbn. unfold INT_MAX. lia.
Defined.

Lemma configuration_is_never_changed_witness :
  exists st',
    run three = Ok st'
    /\ theta1_offset_ (fst st') = Theta1_offset params
    /\ theta2_offset_ (fst st') = Theta2_offset params
    /\ link_1_ (fst st') = link_1 params
    /\ link_2_ (fst st') = link_2 params
    /\ data_num_max_ (fst st') = data_point_count params
    /\ my_output_ (fst st')
       = ("/opt/ros/my_2d_robot" ++ "/Output_yaml/" ++ "02_11_2026_10:00:00"
          ++ "_output.yaml")%string.
Proof.
  apply (configuration_is_never_changed cos sin fmt_double params
           "/opt/ros/my_2d_robot" "02_11_2026_10:00:00" 0%float 0%float world0 three).
  - exact three_two_positions.
  - cbn. unfold INT_MAX. lia.
Defined.

Lemma shutdown_at_most_once_witness :
  exists st',
    run (three ++ three) = Ok st'
    /\ shutdown_calls (snd st')
       = (shutdown_calls world0
          + (if (1 <=? data_point_count params)%Z
                && (data_point_count params <=? Z.of_nat (List.length (three ++ three)))%Z
             then 1 else 0))%nat.
Proof.
  apply (shutdown_at_most_once cos sin fmt_double params
           "/opt/ros/my_2d_robot" "02_11_2026_10:00:00" 0%float 0%float world0
           (three ++ three)).
  - apply Forall_app. split; exact three_two_positions.
  - cbn. unfold INT_MAX. lia.
Defined.

Lemma file_is_the_last_successful_write_witness :
  exists st',
    run [sample 0 0 true; sample 150 25 false] = Ok st'
    /\ (Forall (fun d => can_open d = false) [sample 0 0 true; sample 150 25 false] ->
        disk (snd st') = disk world0)
    /\ (forall before d later,
          [sample 0 0 true; sample 150 25 false] = (before ++ d :: later)%list ->
          can_open d = true ->
          Forall (fun x => can_open x = false) later ->
          disk (snd st')
          = Some (output_data_yaml_ logger0
                  ++ join (map (record_text fmt_double)
                             (map (log_record cos sin logger0) (before ++ [d])))
                  ++ YAML.nl)%string).
Proof.
  apply (file_is_the_last_successful_write cos sin fmt_double logger0 world0
           [sample 0 0 true; sample 150 25 false]).
  - repeat constructor; apply sample_two_positions.
  - cbn. unfold INT_MIN. lia.
  - cbn. unfold INT_MAX. lia.
Defined.

Lemma console_after_a_run_witness :
  exists st',
    run three = Ok st'
    /\ rosout (snd st') = (rosout world0 ++ flat_map console_lines three)%list
    /\ List.length (filter (fun l => match l with ROS_ERROR _ => true | _ => false end)
                           (flat_map console_lines three))
       = List.length (filter (fun d => negb (can_open d)) three).
Proof.
  apply (console_after_a_run cos sin fmt_double logger0 world0 three).
  - exact three_two_positions.
  - cbn. unfold INT_MIN. lia.
  - cbn. unfold INT_MAX. lia.
Defined.

Lemma file_always_reads_back_witness :
  exists st',
    run ([sample 0 0 false] ++ sample 150 25 true :: [sample 314 7 false]) = Ok st'
    /\ file_records (snd st')
       = Some (map (fun x => record_read fmt_double (log_record cos sin logger0 x))
                   ([sample 0 0 false] ++ [sample 150 25 true]))
    /\ data_count_ (fst st')
       = Z.of_nat (List.length ([sample 0 0 false] ++ [sample 150 25 true]))
         + Z.of_nat (List.length [sample 314 7 false]).
Proof.
  apply (file_always_reads_back cos sin fmt_double sample_fmt_numeric params
           "/opt/ros/my_2d_robot" "02_11_2026_10:00:00" 0%float 0%float world0
           [sample 0 0 false] [sample 314 7 false] (sample 150 25 true)).
  - repeat constructor; apply sample_two_positions.
  - cbn. unfold INT_MAX. lia.
  - reflexivity.
  - repeat constructor.
Defined.

End RunsOnSample.
